(** * extract_docs.py: the structural extractor and the document renderer

    A shallow embedding of [src/extract_docs.py]: the line-oriented state
    machine [parse_ts_file], the renderer [generate_markdown] and the
    script body that reads the source file and writes the target file.

    Python [str] values are sequences of Unicode code points; they are
    modelled as lists of code points so that [len], [strip] and slicing
    count what Python counts. *)

From Stdlib Require Import NArith Ascii String Sorted.
From stdpp Require Import base option list gmap pretty.

Local Open Scope N_scope.

(** ** Python strings *)

Abbreviation pychar := N.
Abbreviation pystr := (list N).

Module Py.

(** UTF-8 decoding, as done by [open(..., encoding='utf-8')]; used here to
    write string constants of the source as literals. *)
Fixpoint utf8_cont (n : nat) (acc : N) (bs : list N) : N * list N :=
  match n, bs with
  | S n', b :: bs' => utf8_cont n' (acc * 64 + b mod 64) bs'
  | _, _ => (acc, bs)
  end.

Fixpoint utf8_decode (fuel : nat) (bs : list N) : pystr :=
  match fuel, bs with
  | S fuel', b :: bs' =>
      let '(c, rest) :=
        if b <? 128 then (b, bs')
        else if b <? 224 then utf8_cont 1 (b mod 32) bs'
        else if b <? 240 then utf8_cont 2 (b mod 16) bs'
        else utf8_cont 3 (b mod 8) bs' in
      c :: utf8_decode fuel' rest
  | _, _ => []
  end.

Fixpoint bytes_of_string (s : string) : list N :=
  match s with
  | EmptyString => []
  | String a s' => N_of_ascii a :: bytes_of_string s'
  end.

Definition lit (s : string) : pystr :=
  let bs := bytes_of_string s in utf8_decode (length bs) bs.

Definition eqb (a b : pystr) : bool := bool_decide (a = b).

(** [str.isspace] for one code point: the characters [str.strip()] removes. *)
Definition isspace (c : pychar) : bool :=
  ((9 <=? c) && (c <=? 13)) || ((28 <=? c) && (c <=? 32))
  || (c =? 133) || (c =? 160) || (c =? 5760)
  || ((8192 <=? c) && (c <=? 8202))
  || (c =? 8232) || (c =? 8233) || (c =? 8239) || (c =? 8287) || (c =? 12288).

Fixpoint lstrip_by (p : pychar -> bool) (s : pystr) : pystr :=
  match s with
  | c :: s' => if p c then lstrip_by p s' else s
  | [] => []
  end.

Fixpoint rstrip_by (p : pychar -> bool) (s : pystr) : pystr :=
  match s with
  | c :: s' =>
      match rstrip_by p s' with
      | [] => if p c then [] else [c]
      | r => c :: r
      end
  | [] => []
  end.

Definition is_char (x : pychar) : pychar -> bool := fun c => c =? x.

(** [s.strip()], [s.rstrip()], [s.rstrip(x)] and [s.strip(x)] for a
    one-character argument [x]. *)
Definition strip (s : pystr) : pystr := rstrip_by isspace (lstrip_by isspace s).
Definition rstrip (s : pystr) : pystr := rstrip_by isspace s.
Definition rstrip_c (x : pychar) (s : pystr) : pystr := rstrip_by (is_char x) s.
Definition strip_c (x : pychar) (s : pystr) : pystr :=
  rstrip_by (is_char x) (lstrip_by (is_char x) s).

Fixpoint startswith (p s : pystr) : bool :=
  match p, s with
  | [], _ => true
  | a :: p', b :: s' => (a =? b) && startswith p' s'
  | _ :: _, [] => false
  end.

Definition endswith (p s : pystr) : bool := startswith (reverse p) (reverse s).

(** [p in s] *)
Fixpoint contains (p s : pystr) : bool :=
  startswith p s ||
  match s with
  | [] => false
  | _ :: s' => contains p s'
  end.

(** The first occurrence of [sep] in [s]: the text before and after it. *)
Fixpoint find_sep (sep s : pystr) : option (pystr * pystr) :=
  if startswith sep s then Some ([], drop (length sep) s)
  else match s with
       | [] => None
       | c :: s' =>
           match find_sep sep s' with
           | Some (a, b) => Some (c :: a, b)
           | None => None
           end
       end.

(** [s.split(sep, 1)] for a non-empty [sep]. *)
Definition split1 (sep s : pystr) : list pystr :=
  match find_sep sep s with
  | Some (a, b) => [a; b]
  | None => [s]
  end.

(** [s.rsplit(sep, 1)] for a non-empty [sep]: split at the last occurrence. *)
Definition rsplit1 (sep s : pystr) : list pystr :=
  match find_sep (reverse sep) (reverse s) with
  | Some (a, b) => [reverse b; reverse a]
  | None => [s]
  end.

(** [s.split(x)] for a one-character separator: never the empty list. *)
Fixpoint split_c (x : pychar) (s : pystr) : list pystr :=
  match s with
  | [] => [[]]
  | c :: s' =>
      if c =? x then [] :: split_c x s'
      else match split_c x s' with
           | l :: ls => (c :: l) :: ls
           | [] => [[c]]
           end
  end.

(** [sep.join(parts)] *)
Fixpoint join (sep : pystr) (parts : list pystr) : pystr :=
  match parts with
  | [] => []
  | [p] => p
  | p :: ps => p ++ sep ++ join sep ps
  end.

(** [s[1:-1]] *)
Definition slice_1_m1 (s : pystr) : pystr := removelast (tail s).

End Py.

(** ** String constants of the source *)

Module K.
Local Open Scope string_scope.
Definition NL : pychar := 10.
Definition COMMA : pychar := 44.
Definition SQUOTE : pychar := 39.
Definition DQUOTE : pychar := 34.
Definition BACKTICK : pychar := 96.

Definition nl : pystr := [NL].
Definition empty : pystr := [].
Definition squote : pystr := [SQUOTE].
Definition dquote : pystr := [DQUOTE].
Definition backtick : pystr := [BACKTICK].
Definition backtick_comma : pystr := [BACKTICK; COMMA].
Definition colon : pystr := Eval vm_compute in Py.lit ":".
Definition export_marker : pystr := Eval vm_compute in Py.lit "export const specSections".
Definition open_brace : pystr := Eval vm_compute in Py.lit "{".
Definition close_brace : pystr := Eval vm_compute in Py.lit "}".
Definition close_brace_comma : pystr := Eval vm_compute in Py.lit "},".
Definition close_bracket : pystr := Eval vm_compute in Py.lit "]".
Definition close_bracket_comma : pystr := Eval vm_compute in Py.lit "],".
Definition close_bracket_semi : pystr := Eval vm_compute in Py.lit "];".
Definition id_marker : pystr := Eval vm_compute in Py.lit "id:".
Definition title_marker : pystr := Eval vm_compute in Py.lit "title:".
Definition icon_marker : pystr := Eval vm_compute in Py.lit "icon:".
Definition subsections_marker : pystr := Eval vm_compute in Py.lit "subsections: [".
Definition content_marker : pystr := Eval vm_compute in Py.lit "content: `".
Definition code_marker : pystr := Eval vm_compute in Py.lit "code: `".
Definition notes_marker : pystr := Eval vm_compute in Py.lit "notes: [".
Definition decisions_marker : pystr := Eval vm_compute in Py.lit "decisions: [".
Definition unknown : pystr := Eval vm_compute in Py.lit "Unknown".
Definition h1 : pystr := Eval vm_compute in Py.lit "# ".
Definition h2 : pystr := Eval vm_compute in Py.lit "## ".
Definition space : pystr := Eval vm_compute in Py.lit " ".
Definition id_open : pystr := Eval vm_compute in Py.lit "<!-- id: ".
Definition id_close : pystr := Eval vm_compute in Py.lit " -->".
Definition fence_typescript : pystr := Eval vm_compute in Py.lit "```typescript".
Definition fence_text : pystr := Eval vm_compute in Py.lit "```text".
Definition fence_end : pystr := Eval vm_compute in Py.lit "```".
Definition box_corner : pystr := Eval vm_compute in Py.lit "┌".
Definition box_bar : pystr := Eval vm_compute in Py.lit "│".
Definition h3_decisions : pystr := Eval vm_compute in Py.lit "### Decisions".
Definition h3_notes : pystr := Eval vm_compute in Py.lit "### Notes".
Definition bullet : pystr := Eval vm_compute in Py.lit "- ".
Definition source_file : pystr := Eval vm_compute in Py.lit "src/spec/sections.ts".
Definition target_file : pystr := Eval vm_compute in Py.lit "src/spec/docs/en.md".
End K.

Local Close Scope N_scope.

(** ** Data model

    The dictionaries built by the extractor have a fixed set of keys; a key
    that was never assigned is [None].  ['subsections'] is set when a
    section dictionary is created and never removed, so it is a plain
    list. *)

Record Subsection := mkSubsection {
  sub_id : option pystr;
  sub_title : option pystr;
  sub_content : option pystr;
  sub_code : option pystr;
  sub_notes : option (list pystr);
  sub_decisions : option (list pystr)
}.

Record Section := mkSection {
  sec_subsections : list Subsection;
  sec_id : option pystr;
  sec_title : option pystr;
  sec_icon : option pystr
}.

Global Instance Subsection_eq_dec : EqDecision Subsection.
Proof. solve_decision. Defined.
Global Instance Section_eq_dec : EqDecision Section.
Proof. solve_decision. Defined.

(** [{'subsections': []}] and [{}] *)
Definition new_section : Section := mkSection [] None None None.
Definition new_subsection : Subsection := mkSubsection None None None None None None.

Definition sec_set_id v (s : Section) :=
  mkSection (sec_subsections s) (Some v) (sec_title s) (sec_icon s).
Definition sec_set_title v (s : Section) :=
  mkSection (sec_subsections s) (sec_id s) (Some v) (sec_icon s).
Definition sec_set_icon v (s : Section) :=
  mkSection (sec_subsections s) (sec_id s) (sec_title s) (Some v).
Definition sec_append_sub (sub : Subsection) (s : Section) :=
  mkSection (sec_subsections s ++ [sub]) (sec_id s) (sec_title s) (sec_icon s).

Definition sub_set_id v (s : Subsection) :=
  mkSubsection (Some v) (sub_title s) (sub_content s) (sub_code s) (sub_notes s) (sub_decisions s).
Definition sub_set_title v (s : Subsection) :=
  mkSubsection (sub_id s) (Some v) (sub_content s) (sub_code s) (sub_notes s) (sub_decisions s).
Definition sub_set_content v (s : Subsection) :=
  mkSubsection (sub_id s) (sub_title s) (Some v) (sub_code s) (sub_notes s) (sub_decisions s).
Definition sub_set_code v (s : Subsection) :=
  mkSubsection (sub_id s) (sub_title s) (sub_content s) (Some v) (sub_notes s) (sub_decisions s).
Definition sub_set_notes v (s : Subsection) :=
  mkSubsection (sub_id s) (sub_title s) (sub_content s) (sub_code s) (Some v) (sub_decisions s).
Definition sub_set_decisions v (s : Subsection) :=
  mkSubsection (sub_id s) (sub_title s) (sub_content s) (sub_code s) (sub_notes s) (Some v).

(** ** The extractor: [parse_ts_file] *)

Inductive State :=
| STATE_ROOT
| STATE_IN_SECTIONS_ARRAY
| STATE_IN_SECTION
| STATE_IN_SUBSECTIONS_ARRAY
| STATE_IN_SUBSECTION
| STATE_IN_CONTENT
| STATE_IN_CODE
| STATE_IN_NOTES
| STATE_IN_DECISIONS.

Global Instance State_eq_dec : EqDecision State.
Proof. solve_decision. Defined.

(** The local variables of [parse_ts_file] that live across loop
    iterations.  [sections] and a section's subsection list hold references
    to the dictionaries appended to them; a dictionary is appended only by
    the closing line that leaves its state, and the only way back into
    [STATE_IN_SECTION] from the sections array (resp. into
    [STATE_IN_SUBSECTION]) rebinds [current_section] (resp.
    [current_subsection]) to a new dictionary, so an appended dictionary is
    never written again and copying it is observably the same. *)
Record PState := mkPState {
  state : State;
  sections : list Section;
  current_section : option Section;
  current_subsection : option Subsection;
  buffer : list pystr
}.

Global Instance PState_eq_dec : EqDecision PState.
Proof. solve_decision. Defined.

Definition set_state (s : State) (st : PState) :=
  mkPState s (sections st) (current_section st) (current_subsection st) (buffer st).
Definition set_sections (l : list Section) (st : PState) :=
  mkPState (state st) l (current_section st) (current_subsection st) (buffer st).
Definition set_current_section (s : option Section) (st : PState) :=
  mkPState (state st) (sections st) s (current_subsection st) (buffer st).
Definition set_current_subsection (s : option Subsection) (st : PState) :=
  mkPState (state st) (sections st) (current_section st) s (buffer st).
Definition set_buffer (b : list pystr) (st : PState) :=
  mkPState (state st) (sections st) (current_section st) (current_subsection st) b.

Definition init_state : PState := mkPState STATE_ROOT [] None None [].

Definition clean_str (s : pystr) : pystr :=
  let s := Py.rstrip_c K.COMMA (Py.strip s) in
  if Py.startswith K.squote s && Py.endswith K.squote s then Py.slice_1_m1 s
  else if Py.startswith K.dquote s && Py.endswith K.dquote s then Py.slice_1_m1 s
  else s.

(** The test that closes a buffered capture (lines 109 and 123). *)
Definition closes_capture (stripped : pystr) : bool :=
  Py.endswith K.backtick_comma stripped
  || Py.eqb stripped K.backtick || Py.eqb stripped K.backtick_comma.

(** The test for a field written on one line (lines 79 and 88). *)
Definition single_line (val : pystr) : bool :=
  Py.endswith K.backtick_comma (Py.strip val)
  || (Py.endswith K.backtick (Py.strip val) && bool_decide (1 < length (Py.strip val))%nat).

(** A list item (lines 134 and 141): the stripped line without its
    trailing commas, then without the single quotes and then the double
    quotes at both ends. *)
Definition list_item (stripped : pystr) : pystr :=
  Py.strip_c K.DQUOTE (Py.strip_c K.SQUOTE (Py.rstrip_c K.COMMA (Py.strip stripped))).

(** In the loop body [None] stands for the exception Python raises:
    subscripting [None], a missing key, an index out of range.  The lists
    of the model hold records only, so appending a variable that is still
    [None] has no result either; the invariant [wf] shows that no line
    reaches any of these cases. *)
Definition update_section (f : Section -> Section) (st : PState) : option PState :=
  sec ← current_section st; Some (set_current_section (Some (f sec)) st).
Definition update_subsection (f : Subsection -> Subsection) (st : PState) : option PState :=
  sub ← current_subsection st; Some (set_current_subsection (Some (f sub)) st).

(** One iteration of the loop over the lines. *)
Definition step (st : PState) (line : pystr) : option PState :=
  let stripped := Py.strip line in
  match state st with
  | STATE_ROOT => (* lines 41-43 *)
      if Py.contains K.export_marker line
      then Some (set_state STATE_IN_SECTIONS_ARRAY st)
      else Some st
  | STATE_IN_SECTIONS_ARRAY => (* lines 45-50 *)
      if Py.eqb stripped K.open_brace
      then Some (set_state STATE_IN_SECTION (set_current_section (Some new_section) st))
      else if Py.eqb stripped K.close_bracket_semi
      then Some (set_state STATE_ROOT st)
      else Some st
  | STATE_IN_SECTION => (* lines 52-63 *)
      if Py.startswith K.id_marker stripped then
        v ← Py.split1 K.colon stripped !! 1%nat;
        update_section (sec_set_id (clean_str v)) st
      else if Py.startswith K.title_marker stripped then
        v ← Py.split1 K.colon stripped !! 1%nat;
        update_section (sec_set_title (clean_str v)) st
      else if Py.startswith K.icon_marker stripped then
        v ← Py.split1 K.colon stripped !! 1%nat;
        update_section (sec_set_icon (clean_str v)) st
      else if Py.startswith K.subsections_marker stripped then
        Some (set_state STATE_IN_SUBSECTIONS_ARRAY st)
      else if Py.eqb stripped K.close_brace_comma || Py.eqb stripped K.close_brace then
        sec ← current_section st;
        Some (set_state STATE_IN_SECTIONS_ARRAY (set_sections (sections st ++ [sec]) st))
      else Some st
  | STATE_IN_SUBSECTIONS_ARRAY => (* lines 65-70 *)
      if Py.eqb stripped K.open_brace
      then Some (set_state STATE_IN_SUBSECTION (set_current_subsection (Some new_subsection) st))
      else if Py.eqb stripped K.close_bracket_comma || Py.eqb stripped K.close_bracket
      then Some (set_state STATE_IN_SECTION st)
      else Some st
  | STATE_IN_SUBSECTION => (* lines 72-104 *)
      if Py.startswith K.id_marker stripped then
        v ← Py.split1 K.colon stripped !! 1%nat;
        update_subsection (sub_set_id (clean_str v)) st
      else if Py.startswith K.title_marker stripped then
        v ← Py.split1 K.colon stripped !! 1%nat;
        update_subsection (sub_set_title (clean_str v)) st
      else if Py.startswith K.content_marker stripped then
        content_val ← Py.split1 K.content_marker line !! 1%nat;
        if single_line content_val then
          v ← Py.rsplit1 K.backtick content_val !! 0%nat;
          update_subsection (sub_set_content v) st
        else Some (set_state STATE_IN_CONTENT (set_buffer [content_val] st))
      else if Py.startswith K.code_marker stripped then
        code_val ← Py.split1 K.code_marker line !! 1%nat;
        if single_line code_val then
          v ← Py.rsplit1 K.backtick code_val !! 0%nat;
          update_subsection (sub_set_code v) st
        else Some (set_state STATE_IN_CODE (set_buffer [code_val] st))
      else if Py.startswith K.notes_marker stripped then
        st' ← update_subsection (sub_set_notes []) st;
        Some (set_state STATE_IN_NOTES st')
      else if Py.startswith K.decisions_marker stripped then
        st' ← update_subsection (sub_set_decisions []) st;
        Some (set_state STATE_IN_DECISIONS st')
      else if Py.eqb stripped K.close_brace_comma || Py.eqb stripped K.close_brace then
        sub ← current_subsection st;
        Some (set_state STATE_IN_SUBSECTIONS_ARRAY
                (match current_section st with
                 | Some sec => set_current_section (Some (sec_append_sub sub sec)) st
                 | None => st
                 end))
      else Some st
  | STATE_IN_CONTENT => (* lines 106-120 *)
      if closes_capture stripped then
        let val := Py.rstrip_c K.BACKTICK (Py.rstrip_c K.COMMA (Py.rstrip line)) in
        let st := if bool_decide (val = []) then st else set_buffer (buffer st ++ [val]) st in
        st' ← update_subsection (sub_set_content (Py.join K.nl (buffer st))) st;
        Some (set_state STATE_IN_SUBSECTION st')
      else Some (set_buffer (buffer st ++ [line]) st)
  | STATE_IN_CODE => (* lines 122-130 *)
      if closes_capture stripped then
        let val := Py.rstrip_c K.BACKTICK (Py.rstrip_c K.COMMA (Py.rstrip line)) in
        let st := if bool_decide (val = []) then st else set_buffer (buffer st ++ [val]) st in
        st' ← update_subsection (sub_set_code (Py.join K.nl (buffer st))) st;
        Some (set_state STATE_IN_SUBSECTION st')
      else Some (set_buffer (buffer st ++ [line]) st)
  | STATE_IN_NOTES => (* lines 132-137 *)
      if Py.startswith K.squote stripped || Py.startswith K.dquote stripped then
        sub ← current_subsection st;
        notes ← sub_notes sub;
        Some (set_current_subsection (Some (sub_set_notes (notes ++ [list_item stripped]) sub)) st)
      else if Py.startswith K.close_bracket_comma stripped || Py.eqb stripped K.close_bracket
      then Some (set_state STATE_IN_SUBSECTION st)
      else Some st
  | STATE_IN_DECISIONS => (* lines 139-144 *)
      if Py.startswith K.squote stripped || Py.startswith K.dquote stripped then
        sub ← current_subsection st;
        decisions ← sub_decisions sub;
        Some (set_current_subsection
                (Some (sub_set_decisions (decisions ++ [list_item stripped]) sub)) st)
      else if Py.startswith K.close_bracket_comma stripped || Py.eqb stripped K.close_bracket
      then Some (set_state STATE_IN_SUBSECTION st)
      else Some st
  end.

(** A [for] loop whose body may raise: the items are consumed in order and
    an exception ends the loop. *)
Fixpoint for_each {A B : Type} (body : A -> B -> option A) (a : A) (items : list B) : option A :=
  match items with
  | [] => Some a
  | x :: rest => a' ← body a x; for_each body a' rest
  end.

Definition run (st : PState) (lines : list pystr) : option PState :=
  for_each step st lines.

Definition parse_ts_file (content : pystr) : option (list Section) :=
  st ← run init_state (Py.split_c K.NL content);
  Some (sections st).

(** ** The renderer: [generate_markdown] *)

(** [md.append(x)] and [md[-1] = x]; the assignment raises on an empty list. *)
Definition md_append (x : pystr) (md : list pystr) : list pystr := md ++ [x].
Definition md_set_last (x : pystr) (md : list pystr) : option (list pystr) :=
  match md with
  | [] => None
  | _ => Some (removelast md ++ [x])
  end.

(** Truth value of a string or a list: non-empty. *)
Definition truthy {A : Type} (l : list A) : bool :=
  match l with [] => false | _ => true end.

(** The test of lines 172 and 182: one of the two box-drawing characters
    occurs in the code. *)
Definition looks_like_diagram (code : pystr) : bool :=
  Py.contains K.box_corner code || Py.contains K.box_bar code.

Definition render_bullets (md : list pystr) (items : list pystr) : list pystr :=
  foldl (fun md d => md_append (K.bullet ++ d) md) md items.

(** The body of the inner loop (lines 159 to 200).  The [elif] and [else]
    branches of the first diagram test are [pass]. *)
Definition render_subsection (md : list pystr) (sub : Subsection) : option (list pystr) :=
  let md := md_append (K.h2 ++ default K.unknown (sub_title sub)) md in
  let md := md_append (K.id_open ++ default K.empty (sub_id sub) ++ K.id_close ++ K.nl) md in
  let content := default K.empty (sub_content sub) in
  let md := if truthy content then md_append (Py.strip content ++ K.nl) md else md in
  let code := default K.empty (sub_code sub) in
  md ← (if truthy code then
          let md := md_append K.fence_typescript md in
          let md := if looks_like_diagram code then md_append K.empty md else md in
          md ← (if looks_like_diagram code then md_set_last K.fence_text md else Some md);
          let md := md_append (Py.strip code) md in
          Some (md_append (K.fence_end ++ K.nl) md)
        else Some md);
  let decisions := default [] (sub_decisions sub) in
  let md := if truthy decisions
            then md_append K.empty (render_bullets (md_append K.h3_decisions md) decisions)
            else md in
  let notes := default [] (sub_notes sub) in
  let md := if truthy notes
            then md_append K.empty (render_bullets (md_append K.h3_notes md) notes)
            else md in
  Some md.

(** The body of the outer loop (lines 152 to 200). *)
Definition render_section (md : list pystr) (section : Section) : option (list pystr) :=
  let title := default K.unknown (sec_title section) in
  let icon := default K.empty (sec_icon section) in
  let md := md_append (K.h1 ++ icon ++ K.space ++ title) md in
  let md := md_append (K.id_open ++ default K.empty (sec_id section) ++ K.id_close ++ K.nl) md in
  for_each render_subsection md (sec_subsections section).

Definition generate_markdown (sections : list Section) : option pystr :=
  md ← for_each render_section [] sections;
  Some (Py.join K.nl md).

(** Extraction followed by rendering, as the script composes them. *)
Definition pipeline (content : pystr) : option pystr :=
  sections ← parse_ts_file content;
  generate_markdown sections.

(** ** The script body

    The file system is a finite map from paths to nodes.  A file holds its
    text: the UTF-8 codec and the newline translation of text-mode files
    are not modelled.  The script runs in a world made of the file system
    and of what was printed; its result is [None] when an exception ends
    the process. *)

Inductive Node :=
| File (text : pystr)
| Dir.

Global Instance Node_eq_dec : EqDecision Node.
Proof. solve_decision. Defined.

Record World := mkWorld {
  files : gmap pystr Node;
  stdout : list pystr
}.

Definition SLASH : pychar := 47%N.

(** The directories [os.makedirs(name)] goes through, outermost first, for
    a relative [name]. *)
Fixpoint ancestors (pre rest : pystr) : list pystr :=
  match rest with
  | [] => [pre]
  | c :: rest' =>
      if (c =? SLASH)%N then pre :: ancestors (pre ++ [c]) rest'
      else ancestors (pre ++ [c]) rest'
  end.

(** [os.path.dirname(p)]: the text before the last slash. *)
Definition dirname (p : pystr) : pystr :=
  match Py.rsplit1 [SLASH] p with
  | [head; _] => head
  | _ => []
  end.

(** [os.makedirs(name, exist_ok=True)]: a missing directory is created, an
    existing one is kept, a file in the way raises, and so does the empty
    name.  The directories made before the exception stay. *)
Fixpoint mkdir_all (dirs : list pystr) (fs : gmap pystr Node) : bool * gmap pystr Node :=
  match dirs with
  | [] => (true, fs)
  | d :: rest =>
      match fs !! d with
      | Some (File _) => (false, fs)
      | Some Dir => mkdir_all rest fs
      | None => mkdir_all rest (<[d := Dir]> fs)
      end
  end.

Definition makedirs (name : pystr) (fs : gmap pystr Node) : bool * gmap pystr Node :=
  match name with
  | [] => (false, fs)
  | _ => mkdir_all (ancestors [] name) fs
  end.

(** [f"Extracted {len(sections)} sections to {target_file}"] *)
Definition summary (sections : list Section) : pystr :=
  Py.lit "Extracted " ++ Py.lit (pretty (length sections))
  ++ Py.lit " sections to " ++ K.target_file.

Section Script.

(** The two functions the script calls. *)
Variable extract : pystr → option (list Section).
Variable render : list Section → option pystr.

(** Lines 205 to 215, statement by statement. *)
Definition main_with (w : World) : option unit * World :=
  match files w !! K.source_file with
  | Some (File content) =>
      match extract content with
      | Some sections =>
          match render sections with
          | Some md_content =>
              match makedirs (dirname K.target_file) (files w) with
              | (true, fs) =>
                  match fs !! K.target_file with
                  | Some Dir => (None, mkWorld fs (stdout w))
                  | _ =>
                      (Some (),
                       mkWorld (<[K.target_file := File md_content]> fs)
                         (stdout w ++ [summary sections]))
                  end
              | (false, fs) => (None, mkWorld fs (stdout w))
              end
          | None => (None, w)
          end
      | None => (None, w)
      end
  | _ => (None, w)
  end.

End Script.

Definition main : World → option unit * World :=
  main_with parse_ts_file generate_markdown.

(** * Vocabulary of the statements *)

(** ** States and the lines they react to *)

(** What the dispatch relies on in each state: the dictionaries it
    subscripts exist, and the list it appends to has been initialised. *)
Definition wf (st : PState) : Prop :=
  match state st with
  | STATE_ROOT | STATE_IN_SECTIONS_ARRAY => True
  | STATE_IN_SECTION | STATE_IN_SUBSECTIONS_ARRAY => is_Some (current_section st)
  | STATE_IN_SUBSECTION | STATE_IN_CONTENT | STATE_IN_CODE =>
      is_Some (current_section st) ∧ is_Some (current_subsection st)
  | STATE_IN_NOTES =>
      is_Some (current_section st)
      ∧ ∃ sub, current_subsection st = Some sub ∧ is_Some (sub_notes sub)
  | STATE_IN_DECISIONS =>
      is_Some (current_section st)
      ∧ ∃ sub, current_subsection st = Some sub ∧ is_Some (sub_decisions sub)
  end.

(** The lines a state reacts to: the disjunction of the conditions of its
    branches.  A capture state takes every line. *)
Definition recognized (s : State) (line : pystr) : bool :=
  let stripped := Py.strip line in
  match s with
  | STATE_ROOT => Py.contains K.export_marker line
  | STATE_IN_SECTIONS_ARRAY =>
      Py.eqb stripped K.open_brace || Py.eqb stripped K.close_bracket_semi
  | STATE_IN_SECTION =>
      Py.startswith K.id_marker stripped || Py.startswith K.title_marker stripped
      || Py.startswith K.icon_marker stripped
      || Py.startswith K.subsections_marker stripped
      || Py.eqb stripped K.close_brace_comma || Py.eqb stripped K.close_brace
  | STATE_IN_SUBSECTIONS_ARRAY =>
      Py.eqb stripped K.open_brace
      || Py.eqb stripped K.close_bracket_comma || Py.eqb stripped K.close_bracket
  | STATE_IN_SUBSECTION =>
      Py.startswith K.id_marker stripped || Py.startswith K.title_marker stripped
      || Py.startswith K.content_marker stripped
      || Py.startswith K.code_marker stripped
      || Py.startswith K.notes_marker stripped
      || Py.startswith K.decisions_marker stripped
      || Py.eqb stripped K.close_brace_comma || Py.eqb stripped K.close_brace
  | STATE_IN_CONTENT | STATE_IN_CODE => true
  | STATE_IN_NOTES | STATE_IN_DECISIONS =>
      Py.startswith K.squote stripped || Py.startswith K.dquote stripped
      || Py.startswith K.close_bracket_comma stripped || Py.eqb stripped K.close_bracket
  end.

(** The field markers of the source, and the states whose dispatch has a
    branch for each. *)
Definition field_markers : list pystr :=
  [K.id_marker; K.title_marker; K.icon_marker; K.subsections_marker;
   K.content_marker; K.code_marker; K.notes_marker; K.decisions_marker].

Definition expects (s : State) (m : pystr) : bool :=
  match s with
  | STATE_IN_SECTION =>
      bool_decide (m ∈ [K.id_marker; K.title_marker; K.icon_marker; K.subsections_marker])
  | STATE_IN_SUBSECTION =>
      bool_decide (m ∈ [K.id_marker; K.title_marker; K.content_marker; K.code_marker;
                        K.notes_marker; K.decisions_marker])
  | _ => false
  end.

Definition capturing (s : State) : bool :=
  match s with
  | STATE_IN_CONTENT | STATE_IN_CODE => true
  | _ => false
  end.

(** ** Buffered capture *)

(** The field a capture state writes, and the text kept from the closing
    line (lines 110 and 124). *)
Definition capture_field (s : State) : pystr → Subsection → Subsection :=
  match s with
  | STATE_IN_CODE => sub_set_code
  | _ => sub_set_content
  end.

Definition closing_value (line : pystr) : pystr :=
  Py.rstrip_c K.BACKTICK (Py.rstrip_c K.COMMA (Py.rstrip line)).

Definition flush (val : pystr) (buf : list pystr) : list pystr :=
  if bool_decide (val = []) then buf else buf ++ [val].




(** ** The lines of a record *)

(** The lines one subsection contributes, block by block. *)
Definition heading_block (sub : Subsection) : list pystr :=
  [K.h2 ++ default K.unknown (sub_title sub);
   K.id_open ++ default K.empty (sub_id sub) ++ K.id_close ++ K.nl].

Definition content_block (sub : Subsection) : list pystr :=
  let content := default K.empty (sub_content sub) in
  if truthy content then [Py.strip content ++ K.nl] else [].

Definition fence_lines (code : pystr) : list pystr :=
  if looks_like_diagram code then [K.fence_typescript; K.fence_text]
  else [K.fence_typescript].

Definition code_block (sub : Subsection) : list pystr :=
  let code := default K.empty (sub_code sub) in
  if truthy code then fence_lines code ++ [Py.strip code; K.fence_end ++ K.nl] else [].

Definition bullet_block (heading : pystr) (items : list pystr) : list pystr :=
  if truthy items then heading :: map (λ d, K.bullet ++ d) items ++ [K.empty] else [].

Definition decisions_block (sub : Subsection) : list pystr :=
  bullet_block K.h3_decisions (default [] (sub_decisions sub)).

Definition notes_block (sub : Subsection) : list pystr :=
  bullet_block K.h3_notes (default [] (sub_notes sub)).

Definition subsection_lines (sub : Subsection) : list pystr :=
  heading_block sub ++ content_block sub ++ code_block sub
  ++ decisions_block sub ++ notes_block sub.

Definition section_heading (section : Section) : list pystr :=
  [K.h1 ++ default K.empty (sec_icon section) ++ K.space
     ++ default K.unknown (sec_title section);
   K.id_open ++ default K.empty (sec_id section) ++ K.id_close ++ K.nl].

Definition section_lines (section : Section) : list pystr :=
  section_heading section ++ flat_map subsection_lines (sec_subsections section).

(** ** A source with its fields in the opposite order *)

Definition reversed_fields_source : pystr := Py.lit
"export const specSections = [
  {
    title: 'T',
    subsections: [
      {
        notes: [
          'n1',
        ],
        decisions: [
          'd1',
        ],
        code: `let x = 1;`,
        content: `Some prose.`,
        title: 'S',
      },
    ],
  },
];".

Definition reversed_fields_output : pystr := Py.lit
"#  T
<!-- id:  -->

## S
<!-- id:  -->

Some prose.

```typescript
let x = 1;
```

### Decisions
- d1

### Notes
- n1
".

(** ** A source with bare records *)

Definition bare_records_source : pystr := Py.lit
"export const specSections = [
  {
    subsections: [
      {
      },
    ],
  },
];".

Definition bare_records_output : pystr := Py.lit
"#  Unknown
<!-- id:  -->

## Unknown
<!-- id:  -->
".

(** ** The scenario of the introduction section *)

Definition dq (s : string) : pystr := K.dquote ++ Py.lit s ++ K.dquote.

Definition scenario_source : pystr := Py.join K.nl [
  Py.lit "export const specSections: SpecSection[] = [";
  Py.lit "  {";
  Py.lit "    id: " ++ dq "intro" ++ Py.lit ",";
  Py.lit "    title: " ++ dq "Introduction" ++ Py.lit ",";
  Py.lit "    icon: " ++ dq "📘" ++ Py.lit ",";
  Py.lit "    subsections: [";
  Py.lit "      {";
  Py.lit "        id: " ++ dq "overview" ++ Py.lit ",";
  Py.lit "        title: " ++ dq "Overview" ++ Py.lit ",";
  Py.lit "        content: `Hello";
  Py.lit "World`,";
  Py.lit "        notes: [";
  Py.lit "          " ++ dq "note one" ++ Py.lit ",";
  Py.lit "          " ++ dq "note two" ++ Py.lit ",";
  Py.lit "        ],";
  Py.lit "      },";
  Py.lit "    ],";
  Py.lit "  },";
  Py.lit "];";
  K.empty
].

Definition scenario_section : Section :=
  mkSection
    [mkSubsection (Some (Py.lit "overview")) (Some (Py.lit "Overview"))
       (Some (Py.lit "Hello" ++ K.nl ++ Py.lit "World")) None
       (Some [Py.lit "note one"; Py.lit "note two"]) None]
    (Some (Py.lit "intro")) (Some (Py.lit "Introduction")) (Some (Py.lit "📘")).

Definition scenario_output_lines : list pystr := [
  Py.lit "# 📘 Introduction";
  Py.lit "<!-- id: intro -->";
  K.empty;
  Py.lit "## Overview";
  Py.lit "<!-- id: overview -->";
  K.empty;
  Py.lit "Hello";
  Py.lit "World";
  K.empty;
  Py.lit "### Notes";
  Py.lit "- note one";
  Py.lit "- note two";
  K.empty
].

(** ** Field markers of the capture states *)

Definition capture_marker (s : State) : pystr :=
  match s with
  | STATE_IN_CODE => K.code_marker
  | _ => K.content_marker
  end.

(** ** Blocks of lines that write a field *)

Definition listing (s : State) : bool :=
  match s with
  | STATE_IN_NOTES | STATE_IN_DECISIONS => true
  | _ => false
  end.

Definition list_marker (s : State) : pystr :=
  match s with
  | STATE_IN_DECISIONS => K.decisions_marker
  | _ => K.notes_marker
  end.

Definition list_field (s : State) : list pystr → Subsection → Subsection :=
  match s with
  | STATE_IN_DECISIONS => sub_set_decisions
  | _ => sub_set_notes
  end.

(** The tests of lines 133 and 136 (and 140 and 143). *)
Definition is_item (line : pystr) : bool :=
  Py.startswith K.squote (Py.strip line) || Py.startswith K.dquote (Py.strip line).

Definition closes_list (line : pystr) : bool :=
  negb (is_item line)
  && (Py.startswith K.close_bracket_comma (Py.strip line)
      || Py.eqb (Py.strip line) K.close_bracket).

(** A block of lines writes a field: read inside a subsection, whatever the
    record holds, it brings the extractor back inside the subsection with
    the record updated by [f] and nothing else changed but the buffer. *)
Definition writes (block : list pystr) (f : Subsection → Subsection) : Prop :=
  ∀ st sub,
    state st = STATE_IN_SUBSECTION → current_subsection st = Some sub →
    ∃ buf,
      run st block
      = Some (mkPState STATE_IN_SUBSECTION (sections st) (current_section st)
                (Some (f sub)) buf).

(** ** Opening lines *)

(** How deep in the literal a state is: outside any section, inside a
    section, inside a subsection. *)
Definition level (s : State) : nat :=
  match s with
  | STATE_ROOT | STATE_IN_SECTIONS_ARRAY => 0
  | STATE_IN_SECTION | STATE_IN_SUBSECTIONS_ARRAY => 1
  | _ => 2
  end.

(** What one line can do to the records: open or close a section, open or
    close a subsection, or leave the lists as they are. *)
Inductive transition (st : PState) (line : pystr) (st' : PState) : Prop :=
| T_open_section :
    state st = STATE_IN_SECTIONS_ARRAY → Py.strip line = K.open_brace →
    state st' = STATE_IN_SECTION → sections st' = sections st →
    current_section st' = Some new_section →
    transition st line st'
| T_close_section sec :
    state st = STATE_IN_SECTION → state st' = STATE_IN_SECTIONS_ARRAY →
    current_section st = Some sec → sections st' = sections st ++ [sec] →
    transition st line st'
| T_open_subsection :
    state st = STATE_IN_SUBSECTIONS_ARRAY → Py.strip line = K.open_brace →
    state st' = STATE_IN_SUBSECTION → sections st' = sections st →
    current_section st' = current_section st →
    current_subsection st' = Some new_subsection →
    transition st line st'
| T_close_subsection sub :
    state st = STATE_IN_SUBSECTION → state st' = STATE_IN_SUBSECTIONS_ARRAY →
    sections st' = sections st → current_subsection st = Some sub →
    current_section st' = sec_append_sub sub <$> current_section st →
    transition st line st'
| T_other :
    level (state st') = level (state st) → sections st' = sections st →
    sec_subsections <$> current_section st' = sec_subsections <$> current_section st →
    transition st line st'.

(** Line [k] opens a section: the extractor reads it in the sections array,
    it is an opening brace, and [listed] are the sections appended so far. *)
Definition section_opened_at (ls : list pystr) (k : nat) (listed : list Section) : Prop :=
  ∃ st line,
    run init_state (take k ls) = Some st ∧ ls !! k = Some line
    ∧ state st = STATE_IN_SECTIONS_ARRAY ∧ Py.strip line = K.open_brace
    ∧ sections st = listed.

(** Line [k] opens a subsection of the section that follows [listed], when
    [sublisted] are the subsections appended to that section so far. *)
Definition subsection_opened_at (ls : list pystr) (k : nat)
    (listed : list Section) (sublisted : list Subsection) : Prop :=
  ∃ st line sec,
    run init_state (take k ls) = Some st ∧ ls !! k = Some line
    ∧ state st = STATE_IN_SUBSECTIONS_ARRAY ∧ Py.strip line = K.open_brace
    ∧ sections st = listed ∧ current_section st = Some sec
    ∧ sec_subsections sec = sublisted.

(** The opening lines [o] of a section and of its subsections: each record
    is opened when exactly the records before it have been appended. *)
Definition located (ls : list pystr) (listed : list Section) (sec : Section)
    (o : nat * list nat) : Prop :=
  section_opened_at ls o.1 listed
  ∧ length o.2 = length (sec_subsections sec)
  ∧ ∀ i k, o.2 !! i = Some k →
           subsection_opened_at ls k listed (take i (sec_subsections sec)).

Definition opening_lines (opens : list (nat * list nat)) : list nat :=
  flat_map (λ o, o.1 :: o.2) opens.

(** What holds after any number of lines: the appended sections and the
    open one have their opening lines, in increasing order. *)
Definition order_inv (ls : list pystr) (st : PState) : Prop :=
  ∃ (opens : list (nat * list nat)) (cur : list nat),
    length opens = length (sections st)
    ∧ (∀ j o sec, opens !! j = Some o → sections st !! j = Some sec →
                  located ls (take j (sections st)) sec o)
    ∧ StronglySorted lt (opening_lines opens ++ cur)
    ∧ Forall (λ k, k < length ls) (opening_lines opens ++ cur)
    ∧ match level (state st) with
      | 0 => cur = []
      | 1 => ∃ k subs sec,
               cur = k :: subs ∧ current_section st = Some sec
               ∧ located ls (sections st) sec (k, subs)
      | _ => ∃ k subs k2 sec,
               cur = k :: subs ++ [k2] ∧ current_section st = Some sec
               ∧ located ls (sections st) sec (k, subs)
               ∧ subsection_opened_at ls k2 (sections st) (sec_subsections sec)
      end.

(** ** Concrete states, lines and worlds *)



Definition diagram_code : pystr := Py.lit
"┌───┐
│ A │
└───┘".

Definition diagram_sub : Subsection :=
  mkSubsection None None None (Some diagram_code) None None.

Definition diagram_source : pystr := Py.lit
"export const specSections = [
  {
    id: 'arch',
    title: 'Architecture',
    subsections: [
      {
        id: 'layers',
        title: 'Layers',
        code: `
┌───┐
│ A │
└───┘
`,
      },
    ],
  },
];".

Definition diagram_output : pystr := Py.lit
"#  Architecture
<!-- id: arch -->

## Layers
<!-- id: layers -->

```typescript
```text
┌───┐
│ A │
└───┘
```
".

Definition open_state : PState :=
  mkPState STATE_IN_SUBSECTION [] (Some new_section) (Some new_subsection) [].




Definition content_lines : list pystr :=
  [Py.lit "        content: `Hello"; Py.lit "World`,"].
Definition notes_lines : list pystr :=
  [Py.lit "        notes: ["; Py.lit "          'n1',"; Py.lit "        ],"].
Definition content_and_notes : Subsection :=
  mkSubsection None None (Some (Py.lit "Hello" ++ K.nl ++ Py.lit "World")) None
    (Some [Py.lit "n1"]) None.

Definition first_world : World :=
  mkWorld {[ K.source_file := File scenario_source ]} [].

(** ** Quoted values and field lines *)

(** The two quote characters [clean_str] removes (lines 32 and 34). *)
Definition is_quote (q : pychar) : Prop := q = K.SQUOTE ∨ q = K.DQUOTE.

Definition all_space (s : pystr) : Prop := Forall (λ c, Py.isspace c = true) s.

Definition all_comma (s : pystr) : Prop := Forall (λ c, c = K.COMMA) s.

(** A quoted value: white space, a text between two quote characters,
    commas, white space. *)
Definition quoted_value (ws1 : pystr) (q : pychar) (t cs ws2 : pystr) : pystr :=
  ws1 ++ [q] ++ t ++ [q] ++ cs ++ ws2.

(** The markers of lines 52 to 57 and of lines 72 to 75, each with the
    field it assigns. *)
Definition section_fields : list (pystr * (pystr → Section → Section)) :=
  [(K.id_marker, sec_set_id); (K.title_marker, sec_set_title); (K.icon_marker, sec_set_icon)].

Definition subsection_fields : list (pystr * (pystr → Subsection → Subsection)) :=
  [(K.id_marker, sub_set_id); (K.title_marker, sub_set_title)].

(** A line that assigns a scalar field: indentation, the marker, the
    quoted value. *)
Definition field_line (indent m ws1 : pystr) (q : pychar) (t cs ws2 : pystr) : pystr :=
  indent ++ m ++ quoted_value ws1 q t cs ws2.

(** A text with no quote character at either end. *)
Definition plain_ends (t : pystr) : Prop :=
  (∀ c, head t = Some c → ¬ is_quote c) ∧ (∀ c, last t = Some c → ¬ is_quote c).

(** A template literal on one line: indentation, the marker with its
    backtick, the text, the closing backtick, what follows it. *)
Definition template_line (indent : pystr) (cap : State) (t cs ws : pystr) : pystr :=
  indent ++ capture_marker cap ++ t ++ [K.BACKTICK] ++ cs ++ ws.

(** ** Closed lists of lines *)

(** The last line of a list is closed when it ends with a newline, or is
    empty and follows another line. *)
Definition closed (ls : list pystr) : Prop :=
  ∃ ls' l, ls = ls' ++ [l] ∧ ((∃ b, l = b ++ K.nl) ∨ (l = [] ∧ ls' ≠ [])).

(** ** States that agree up to the sections already listed *)

(** Two states of the extractor agree up to the sections [pre] already
    listed in the first: same state, and the same variables as far as the
    state reads them. *)
Definition agree (pre : list Section) (a b : PState) : Prop :=
  state a = state b
  ∧ sections a = pre ++ sections b
  ∧ (1 ≤ level (state a) → current_section a = current_section b)
  ∧ (2 ≤ level (state a) → current_subsection a = current_subsection b)
  ∧ (capturing (state a) = true → buffer a = buffer b).

Definition agree_opt (pre : list Section) (a b : option PState) : Prop :=
  match a, b with
  | Some a', Some b' => agree pre a' b'
  | None, None => True
  | _, _ => False
  end.

(** ** The layout of a declaration *)

(** The tests of lines 45 and 65 (opening brace), 61 and 101 (closing
    brace) and 68 (end of the subsections array). *)
Definition is_open (l : pystr) : Prop := Py.strip l = K.open_brace.

Definition is_close (l : pystr) : Prop :=
  Py.strip l = K.close_brace_comma ∨ Py.strip l = K.close_brace.

Definition is_list_end (l : pystr) : Prop :=
  Py.strip l = K.close_bracket_comma ∨ Py.strip l = K.close_bracket.

(** The section with [subs] appended to its subsections. *)
Definition sec_extend (subs : list Subsection) (s : Section) : Section :=
  mkSection (sec_subsections s ++ subs) (sec_id s) (sec_title s) (sec_icon s).

(** A block of lines read inside a section that updates the section by
    [g]; a block read in a subsections array that appends [subs] to the
    section; a block read in the sections array that appends [secs] to the
    result. *)
Definition writes_section (block : list pystr) (g : Section → Section) : Prop :=
  ∀ st sec,
    state st = STATE_IN_SECTION → current_section st = Some sec →
    ∃ csub buf,
      run st block
      = Some (mkPState STATE_IN_SECTION (sections st) (Some (g sec)) csub buf).

Definition adds_subsections (block : list pystr) (subs : list Subsection) : Prop :=
  ∀ st sec,
    state st = STATE_IN_SUBSECTIONS_ARRAY → current_section st = Some sec →
    ∃ csub buf,
      run st block
      = Some (mkPState STATE_IN_SUBSECTIONS_ARRAY (sections st)
                (Some (sec_extend subs sec)) csub buf).

Definition adds_sections (block : list pystr) (secs : list Section) : Prop :=
  ∀ st,
    state st = STATE_IN_SECTIONS_ARRAY →
    ∃ cs csub buf,
      run st block
      = Some (mkPState STATE_IN_SECTIONS_ARRAY (sections st ++ secs) cs csub buf).

(** ** More concrete states, lines and worlds *)

Definition section_state : PState :=
  mkPState STATE_IN_SECTION [] (Some new_section) None [].

Definition array_state : PState :=
  mkPState STATE_IN_SUBSECTIONS_ARRAY [] (Some new_section) None [].

Definition notes_state : PState :=
  mkPState STATE_IN_NOTES [] (Some new_section)
    (Some (sub_set_notes [Py.lit "n1"] new_subsection)) [].

Definition title_line : pystr :=
  field_line (Py.lit "    ") K.title_marker (Py.lit " ") K.SQUOTE (Py.lit "Intro")
    [K.COMMA] [].

Definition unterminated_source : pystr := Py.join K.nl [
  Py.lit "export const specSections = [";
  Py.lit "  {";
  Py.lit "    subsections: [";
  Py.lit "      {";
  Py.lit "        content: `Hello"
].

Definition unterminated_rest : pystr := Py.join K.nl [
  Py.lit "World";
  Py.lit "      },";
  Py.lit "    ],";
  Py.lit "  },";
  Py.lit "];"
].

Definition unterminated_state : PState :=
  mkPState STATE_IN_CONTENT [] (Some new_section) (Some new_subsection)
    [Py.lit "Hello"].

Definition scenario_final_state : PState :=
  mkPState STATE_ROOT [scenario_section] (Some scenario_section)
    (head (sec_subsections scenario_section)) [Py.lit "Hello"; Py.lit "World"].

Definition blank_sub : Subsection :=
  mkSubsection None None (Some (Py.lit "  ")) (Some (Py.lit " ")) None None.

Definition titled_sub : Subsection := sub_set_title (Py.lit "Intro") new_subsection.

Definition titled_section : Section := sec_set_title (Py.lit "Intro") new_section.

Definition small_section_block : list pystr :=
  Py.lit "  {" :: [title_line] ++ [Py.lit "  },"].


(** ** Closing lines *)

(** Line [k] closes a section: the extractor reads it inside a section, it
    is a closing brace, [sec] is the section being read and [listed] are
    the sections appended so far. *)
Definition section_closed_at (ls : list pystr) (k : nat)
    (listed : list Section) (sec : Section) : Prop :=
  ∃ st line,
    run init_state (take k ls) = Some st ∧ ls !! k = Some line
    ∧ state st = STATE_IN_SECTION ∧ is_close line
    ∧ sections st = listed ∧ current_section st = Some sec.

(** Line [k] closes a subsection [sub] of the section that follows
    [listed], when [sublisted] are the subsections appended to that section
    so far. *)
Definition subsection_closed_at (ls : list pystr) (k : nat)
    (listed : list Section) (sublisted : list Subsection) (sub : Subsection) : Prop :=
  ∃ st line sec,
    run init_state (take k ls) = Some st ∧ ls !! k = Some line
    ∧ state st = STATE_IN_SUBSECTION ∧ is_close line
    ∧ sections st = listed ∧ current_section st = Some sec
    ∧ sec_subsections sec = sublisted ∧ current_subsection st = Some sub.

(** The section number [n] keeps the subsections [subs]: it is being read
    and holds them, or it is appended and holds them. *)
Definition keeps (n : nat) (subs : list Subsection) (st : PState) : Prop :=
  (length (sections st) = n ∧ 1 ≤ level (state st)
   ∧ ∃ sec, current_section st = Some sec ∧ subs `prefix_of` sec_subsections sec)
  ∨ (∃ sec, sections st !! n = Some sec ∧ subs `prefix_of` sec_subsections sec).

(** ** A source with two sections of two subsections *)

Definition two_sections_source : pystr := Py.join K.nl [
  Py.lit "export const specSections: SpecSection[] = [";
  Py.lit "  {";
  Py.lit "    id: 'a',";
  Py.lit "    subsections: [";
  Py.lit "      {";
  Py.lit "        id: 'a1',";
  Py.lit "      },";
  Py.lit "      {";
  Py.lit "        id: 'a2',";
  Py.lit "      },";
  Py.lit "    ],";
  Py.lit "  },";
  Py.lit "  {";
  Py.lit "    id: 'b',";
  Py.lit "    subsections: [";
  Py.lit "      {";
  Py.lit "        id: 'b1',";
  Py.lit "      },";
  Py.lit "      {";
  Py.lit "        id: 'b2',";
  Py.lit "      },";
  Py.lit "    ],";
  Py.lit "  },";
  Py.lit "];"
].

Definition id_sub (s : string) : Subsection := sub_set_id (Py.lit s) new_subsection.

Definition two_sections : list Section := [
  mkSection [id_sub "a1"; id_sub "a2"] (Some (Py.lit "a")) None None;
  mkSection [id_sub "b1"; id_sub "b2"] (Some (Py.lit "b")) None None
].

(** ** A code field whose text ends with an escaped backtick *)





(** * Properties *)

(** ** Facts about the string operations *)

Section StringFacts.
Implicit Types (s p sep a b t : pystr) (c x : pychar).

Lemma startswith_app p t : Py.startswith p (p ++ t) = true.
Proof. induction p as [|c p IH]; simpl; [done|]. by rewrite N.eqb_refl. Qed.

Lemma startswith_inv p s : Py.startswith p s = true → ∃ t, s = p ++ t.
Proof.
  revert s. induction p as [|c p IH]; intros s H; simpl in *; [by exists s|].
  destruct s as [|d s]; [done|].
  apply andb_prop in H as [Hc Hp]. apply N.eqb_eq in Hc as ->.
  destruct (IH _ Hp) as [t ->]. by exists t.
Qed.

Lemma rstrip_by_spec f s :
  ∃ post, s = Py.rstrip_by f s ++ post ∧ Forall (λ c, f c = true) post.
Proof.
  induction s as [|c s (post & IH & Hpost)]; simpl; [by exists []|].
  destruct (Py.rstrip_by f s) as [|d r] eqn:E.
  - destruct (f c) eqn:Hc; [exists (c :: s) | exists s]; split; try done.
    + constructor; [done|]. by rewrite IH.
    + by rewrite IH.
  - exists post. split; [|done]. simpl. f_equal. exact IH.
Qed.

Lemma rstrip_by_last f s c :
  last (Py.rstrip_by f s) = Some c → f c = false.
Proof.
  induction s as [|d s IH]; simpl; [done|].
  destruct (Py.rstrip_by f s) as [|e r] eqn:E.
  - destruct (f d) eqn:Hd; simpl; [done|]. by intros [= <-].
  - intros H. apply IH. by destruct r.
Qed.

Lemma endswith_app t p : Py.endswith p (t ++ p) = true.
Proof. unfold Py.endswith. rewrite reverse_app. apply startswith_app. Qed.


Lemma lstrip_by_spec f s :
  ∃ pre, s = pre ++ Py.lstrip_by f s ∧ Forall (λ c, f c = true) pre.
Proof.
  induction s as [|c s (pre & IH & Hpre)]; simpl; [by exists []|].
  destruct (f c) eqn:Hc; [|by exists []].
  exists (c :: pre). split; [simpl; f_equal; exact IH | by constructor].
Qed.

(** [strip] removes white space at both ends and nothing else. *)
Lemma strip_spec s :
  ∃ pre post, s = pre ++ Py.strip s ++ post
    ∧ Forall (λ c, Py.isspace c = true) pre
    ∧ Forall (λ c, Py.isspace c = true) post.
Proof.
  unfold Py.strip.
  destruct (lstrip_by_spec Py.isspace s) as (pre & Hpre & Fpre).
  destruct (rstrip_by_spec Py.isspace (Py.lstrip_by Py.isspace s)) as (post & Hpost & Fpost).
  exists pre, post. split; [|done].
  transitivity (pre ++ Py.lstrip_by Py.isspace s); [exact Hpre | f_equal; exact Hpost].
Qed.

Lemma strip_middle s : ∃ pre post, s = pre ++ Py.strip s ++ post.
Proof. destruct (strip_spec s) as (pre & post & E & _). by exists pre, post. Qed.

Lemma find_sep_found sep a b : is_Some (Py.find_sep sep (a ++ sep ++ b)).
Proof.
  induction a as [|c a IH].
  - rewrite app_nil_l. destruct sep as [|d sep]; [destruct b; by eexists|].
    rewrite <- app_comm_cons. simpl.
    rewrite N.eqb_refl, startswith_app. by eexists.
  - change ((c :: a) ++ sep ++ b) with (c :: (a ++ sep ++ b)).
    destruct IH as [[u v] E]. simpl. rewrite E.
    destruct (Py.startswith sep (c :: a ++ sep ++ b)); by eexists.
Qed.

Lemma find_sep_sound sep s a b :
  Py.find_sep sep s = Some (a, b) → s = a ++ sep ++ b.
Proof.
  revert a b. induction s as [|c s IH]; intros a b.
  - destruct sep; simpl; [|done]. by intros [= <- <-].
  - simpl. destruct (Py.startswith sep (c :: s)) eqn:E.
    + intros [= <- <-]. apply startswith_inv in E as [t E]. rewrite E at 1.
      simpl. f_equal. rewrite E, drop_app_length. done.
    + destruct (Py.find_sep sep s) as [[u v]|]; [|done].
      intros [= <- <-]. simpl. f_equal. by apply IH.
Qed.

Lemma split1_second sep a b : is_Some (Py.split1 sep (a ++ sep ++ b) !! 1%nat).
Proof.
  unfold Py.split1. destruct (find_sep_found sep a b) as [[u v] ->]. by eexists.
Qed.

(** The remainder of a line whose stripped form starts with a marker. *)
Lemma split1_marker_line m line :
  Py.startswith m (Py.strip line) = true → is_Some (Py.split1 m line !! 1%nat).
Proof.
  intros H. apply startswith_inv in H as [t Ht].
  destruct (strip_middle line) as (pre & post & E).
  rewrite E, Ht, <- (assoc (++) m t post). apply split1_second.
Qed.


Lemma split1_colon m t :
  is_Some (Py.find_sep K.colon m) → is_Some (Py.split1 K.colon (m ++ t) !! 1%nat).
Proof.
  intros [[a b] E]. apply find_sep_sound in E. rewrite E.
  rewrite <- !(assoc (++)). apply split1_second.
Qed.

Lemma split1_colon_marker m s :
  is_Some (Py.find_sep K.colon m) → Py.startswith m s = true →
  is_Some (Py.split1 K.colon s !! 1%nat).
Proof.
  intros Hm H. apply startswith_inv in H as [t ->]. by apply split1_colon.
Qed.

Lemma rsplit1_first sep s : is_Some (Py.rsplit1 sep s !! 0%nat).
Proof.
  unfold Py.rsplit1. destruct (Py.find_sep _ _) as [[a b]|]; by eexists.
Qed.

Lemma split_c_no_sep x s : x ∉ s → Py.split_c x s = [s].
Proof.
  induction s as [|c s IH]; intros H; simpl; [done|].
  apply not_elem_of_cons in H as [Hc Hs].
  destruct (N.eqb_spec c x) as [->|_]; [done|]. by rewrite IH.
Qed.

Lemma split_c_app_sep x p s :
  x ∉ p → Py.split_c x (p ++ x :: s) = p :: Py.split_c x s.
Proof.
  induction p as [|c p IH]; intros H.
  - rewrite app_nil_l. simpl. by rewrite N.eqb_refl.
  - apply not_elem_of_cons in H as [Hc Hp].
    rewrite <- app_comm_cons. simpl.
    destruct (N.eqb_spec c x) as [->|_]; [done|]. by rewrite IH.
Qed.

(** Splitting what was joined gives the parts back. *)
Lemma split_c_join x parts :
  parts ≠ [] → Forall (λ l, x ∉ l) parts →
  Py.split_c x (Py.join [x] parts) = parts.
Proof.
  induction parts as [|p parts IH]; intros Hne H; [done|].
  apply Forall_cons in H as [Hp H].
  destruct parts as [|q parts]; [by apply split_c_no_sep|].
  change (Py.join [x] (p :: q :: parts)) with (p ++ x :: Py.join [x] (q :: parts)).
  rewrite split_c_app_sep by done. f_equal. by apply IH.
Qed.

(** The lines of a text hold no newline. *)
Lemma split_c_no_newline x s : Forall (λ l, x ∉ l) (Py.split_c x s).
Proof.
  induction s as [|c s IH]; simpl.
  - constructor; [apply not_elem_of_nil | constructor].
  - destruct (N.eqb_spec c x) as [->|Hc].
    + constructor; [apply not_elem_of_nil | done].
    + destruct (Py.split_c x s) as [|l ls]; [repeat constructor|].
      * intros H. apply list_elem_of_singleton in H. by subst.
      * apply Forall_cons in IH as [Hl Hls]. constructor; [|done].
        apply not_elem_of_cons. by split.
Qed.

End StringFacts.

(** From here on the string operations are used through their lemmas. *)
Global Arguments Py.startswith : simpl never.
Global Arguments Py.endswith : simpl never.
Global Arguments Py.contains : simpl never.
Global Arguments Py.find_sep : simpl never.
Global Arguments Py.split1 : simpl never.
Global Arguments Py.rsplit1 : simpl never.
Global Arguments Py.split_c : simpl never.
Global Arguments Py.join : simpl never.
Global Arguments Py.strip : simpl never.
Global Arguments Py.rstrip : simpl never.
Global Arguments Py.rstrip_c : simpl never.
Global Arguments Py.strip_c : simpl never.
Global Arguments Py.eqb : simpl never.
Global Arguments clean_str : simpl never.
Global Arguments list_item : simpl never.
Global Arguments closes_capture : simpl never.
Global Arguments single_line : simpl never.
Global Arguments makedirs : simpl never.
Global Arguments dirname : simpl never.

(** ** Stripping and joining texts put together *)

Lemma lstrip_by_app f ws s :
  Forall (λ c, f c = true) ws → Py.lstrip_by f (ws ++ s) = Py.lstrip_by f s.
Proof.
  induction 1 as [|c ws Hc _ IH]; [done|].
  rewrite <- app_comm_cons. simpl. by rewrite Hc.
Qed.

Lemma lstrip_by_head f c s : f c = false → Py.lstrip_by f (c :: s) = c :: s.
Proof. intros H. simpl. by rewrite H. Qed.

Lemma rstrip_by_all f t : Forall (λ c, f c = true) t → Py.rstrip_by f t = [].
Proof.
  induction 1 as [|c t Hc _ IH]; [done|]. simpl. by rewrite IH, Hc.
Qed.


Lemma rstrip_by_app f s t :
  Forall (λ c, f c = true) t → Py.rstrip_by f (s ++ t) = Py.rstrip_by f s.
Proof.
  intros Ht. induction s as [|c s IH].
  - rewrite app_nil_l. by apply rstrip_by_all.
  - rewrite <- app_comm_cons. simpl. by rewrite IH.
Qed.

Lemma rstrip_by_snoc f s c : f c = false → Py.rstrip_by f (s ++ [c]) = s ++ [c].
Proof.
  intros Hc. induction s as [|d s IH].
  - simpl. by rewrite Hc.
  - rewrite <- app_comm_cons. simpl. rewrite IH.
    destruct (s ++ [c]) eqn:E; [|done]. by destruct s.
Qed.

Lemma rstrip_by_keep f t :
  (∀ c, last t = Some c → f c = false) → Py.rstrip_by f t = t.
Proof.
  destruct t as [|c t _] using rev_ind; [done|].
  intros H. apply rstrip_by_snoc. apply H. by rewrite last_snoc.
Qed.

Lemma join_app sep l1 l2 :
  l1 ≠ [] → l2 ≠ [] →
  Py.join sep (l1 ++ l2) = Py.join sep l1 ++ sep ++ Py.join sep l2.
Proof.
  intros H1 H2. induction l1 as [|p l1 IH]; [done|].
  destruct l1 as [|p' l1].
  - destruct l2; [done|]. reflexivity.
  - change (Py.join sep ((p :: p' :: l1) ++ l2))
      with (p ++ sep ++ Py.join sep ((p' :: l1) ++ l2)).
    rewrite IH by done.
    change (Py.join sep (p :: p' :: l1)) with (p ++ sep ++ Py.join sep (p' :: l1)).
    by rewrite <- !(assoc (++)).
Qed.


(** ** The extractor never raises *)

Lemma wf_init : wf init_state.
Proof. exact I. Qed.

Ltac colon_field m H :=
  let v := fresh "v" in let Hv := fresh "Hv" in
  destruct (split1_colon_marker m _ ltac:(by eexists) H) as [v Hv];
  rewrite Hv; simpl.

Ltac marker_field H :=
  let v := fresh "v" in let Hv := fresh "Hv" in
  destruct (split1_marker_line _ _ H) as [v Hv]; rewrite Hv; simpl.

Ltac step_done :=
  unfold update_section, update_subsection; simpl;
  eexists; split; [reflexivity|]; simpl; eauto 10.

Lemma step_wf st line : wf st → ∃ st', step st line = Some st' ∧ wf st'.
Proof.
  destruct st as [s secs cs csub buf]. unfold wf, step; simpl.
  destruct s; simpl; intros Hwf.
  - destruct (Py.contains _ _); step_done.
  - repeat (destruct (Py.eqb _ _)); step_done.
  - destruct Hwf as [sec ->].
    destruct (Py.startswith K.id_marker (Py.strip line)) eqn:H1;
      [colon_field K.id_marker H1; step_done|].
    destruct (Py.startswith K.title_marker (Py.strip line)) eqn:H2;
      [colon_field K.title_marker H2; step_done|].
    destruct (Py.startswith K.icon_marker (Py.strip line)) eqn:H3;
      [colon_field K.icon_marker H3; step_done|].
    destruct (Py.startswith K.subsections_marker _); [step_done|].
    destruct (_ || _); step_done.
  - destruct (Py.eqb _ K.open_brace); [step_done|].
    destruct (_ || _); step_done.
  - destruct Hwf as [[sec ->] [sub ->]].
    destruct (Py.startswith K.id_marker (Py.strip line)) eqn:H1;
      [colon_field K.id_marker H1; step_done|].
    destruct (Py.startswith K.title_marker (Py.strip line)) eqn:H2;
      [colon_field K.title_marker H2; step_done|].
    destruct (Py.startswith K.content_marker (Py.strip line)) eqn:H3.
    { marker_field H3. destruct (single_line v); [|step_done].
      destruct (rsplit1_first K.backtick v) as [w ->]. step_done. }
    destruct (Py.startswith K.code_marker (Py.strip line)) eqn:H4.
    { marker_field H4. destruct (single_line v); [|step_done].
      destruct (rsplit1_first K.backtick v) as [w ->]. step_done. }
    destruct (Py.startswith K.notes_marker _); [step_done|].
    destruct (Py.startswith K.decisions_marker _); [step_done|].
    destruct (_ || _); step_done.
  - destruct Hwf as [[sec ->] [sub ->]].
    destruct (closes_capture _); [|step_done].
    case_bool_decide; step_done.
  - destruct Hwf as [[sec ->] [sub ->]].
    destruct (closes_capture _); [|step_done].
    case_bool_decide; step_done.
  - destruct Hwf as [[sec ->] (sub & -> & [l Hl])].
    destruct (_ || _); [simpl; rewrite Hl; step_done|].
    destruct (_ || _); step_done.
  - destruct Hwf as [[sec ->] (sub & -> & [l Hl])].
    destruct (_ || _); [simpl; rewrite Hl; step_done|].
    destruct (_ || _); step_done.
Qed.

Lemma run_wf lines : ∀ st, wf st → ∃ st', run st lines = Some st' ∧ wf st'.
Proof.
  induction lines as [|line lines IH]; intros st Hwf; [by exists st|].
  destruct (step_wf st line Hwf) as (st1 & E1 & Hwf1).
  destruct (IH st1 Hwf1) as (st2 & E2 & Hwf2).
  exists st2. split; [|done]. unfold run in *. simpl. by rewrite E1.
Qed.

Lemma step_unrecognized st line :
  recognized (state st) line = false → step st line = Some st.
Proof.
  destruct st as [s secs cs csub buf]. unfold recognized, step. simpl.
  destruct s; simpl; intros H; try discriminate;
    repeat (apply orb_false_elim in H as [H ?]);
    repeat match goal with E : _ = false |- _ => rewrite E; clear E end;
    reflexivity.
Qed.

Lemma marker_unrecognized s line m :
  m ∈ field_markers → Py.startswith m (Py.strip line) = true →
  expects s m = false → capturing s = false →
  (s = STATE_ROOT → Py.contains K.export_marker line = false) →
  recognized s line = false.
Proof.
  intros Hm Hs He Hc Hx. apply startswith_inv in Hs as [t Ht].
  unfold recognized. rewrite Ht. clear Ht.
  unfold field_markers in Hm.
  destruct s; try discriminate; try (by apply Hx);
    repeat (apply elem_of_cons in Hm as [-> | Hm]);
    try (by apply elem_of_nil in Hm);
    try discriminate; reflexivity.
Qed.

(** C7: for every input text the extractor returns a section list, it never
    raises.  A line that matches no branch of the current state leaves every
    variable of the extractor unchanged; in particular a field marker met in
    a scanning state that has no branch for it (and, in the root state, on a
    line without the declaration token) changes nothing. *)
Theorem extractor_never_raises :
  (∀ content, ∃ secs, parse_ts_file content = Some secs)
  ∧ (∀ st line, recognized (state st) line = false → step st line = Some st)
  ∧ (∀ st line m,
       m ∈ field_markers → Py.startswith m (Py.strip line) = true →
       expects (state st) m = false → capturing (state st) = false →
       (state st = STATE_ROOT → Py.contains K.export_marker line = false) →
       step st line = Some st).
Proof.
  split; [|split].
  - intros content. unfold parse_ts_file.
    destruct (run_wf (Py.split_c K.NL content) init_state wf_init) as (st & -> & _).
    by eexists.
  - apply step_unrecognized.
  - intros st line m Hm Hs He Hc Hx.
    apply step_unrecognized. by apply (marker_unrecognized _ _ m).
Qed.

(** ** Buffered capture (C1) *)




Lemma step_capture_close st line sub :
  capturing (state st) = true → current_subsection st = Some sub →
  closes_capture (Py.strip line) = true →
  step st line =
    Some (mkPState STATE_IN_SUBSECTION (sections st) (current_section st)
            (Some (capture_field (state st)
                     (Py.join K.nl (flush (closing_value line) (buffer st))) sub))
            (flush (closing_value line) (buffer st))).
Proof.
  intros Hc Hsub H.
  destruct st as [s secs cs csub bf]. simpl in *. subst csub.
  unfold step, flush, closing_value. simpl.
  destruct s; try discriminate; simpl; rewrite H;
    case_bool_decide; reflexivity.
Qed.

Lemma step_capture_keep st line :
  capturing (state st) = true → closes_capture (Py.strip line) = false →
  step st line =
    Some (mkPState (state st) (sections st) (current_section st)
            (current_subsection st) (buffer st ++ [line])).
Proof.
  intros Hc E. destruct st as [s secs cs csub bf]. simpl in *.
  unfold step. simpl. destruct s; try discriminate; simpl; by rewrite E.
Qed.


(** ** What the renderer appends *)

Lemma md_set_last_snoc x y md : md_set_last x (md ++ [y]) = Some (md ++ [x]).
Proof.
  unfold md_set_last. rewrite removelast_last. by destruct md.
Qed.

Lemma render_bullets_app md items :
  render_bullets md items = md ++ map (λ d, K.bullet ++ d) items.
Proof.
  unfold render_bullets. revert md.
  induction items as [|d items IH]; intros md; simpl; [by rewrite app_nil_r|].
  rewrite IH. unfold md_append. by rewrite <- (assoc (++)).
Qed.

Lemma render_subsection_lines md sub :
  render_subsection md sub = Some (md ++ subsection_lines sub).
Proof.
  unfold render_subsection, subsection_lines, heading_block, content_block,
    code_block, fence_lines, decisions_block, notes_block, bullet_block, md_append.
  destruct (truthy (default K.empty (sub_content sub)));
    destruct (truthy (default K.empty (sub_code sub)));
    destruct (looks_like_diagram (default K.empty (sub_code sub)));
    rewrite ?md_set_last_snoc; simpl;
    destruct (truthy (default [] (sub_decisions sub)));
    destruct (truthy (default [] (sub_notes sub)));
    rewrite ?render_bullets_app; f_equal;
    repeat (rewrite <- ?(assoc (++)); simpl); reflexivity.
Qed.

Lemma for_each_render_subsection subs : ∀ md,
  for_each render_subsection md subs = Some (md ++ flat_map subsection_lines subs).
Proof.
  induction subs as [|sub subs IH]; intros md; simpl; [by rewrite app_nil_r|].
  rewrite render_subsection_lines. simpl. rewrite IH. by rewrite <- (assoc (++)).
Qed.

Lemma render_section_lines md section :
  render_section md section = Some (md ++ section_lines section).
Proof.
  unfold render_section, section_lines, section_heading, md_append.
  rewrite for_each_render_subsection. f_equal.
  repeat (rewrite <- ?(assoc (++)); simpl). reflexivity.
Qed.

Lemma for_each_render_section secs : ∀ md,
  for_each render_section md secs = Some (md ++ flat_map section_lines secs).
Proof.
  induction secs as [|sec secs IH]; intros md; simpl; [by rewrite app_nil_r|].
  rewrite render_section_lines. simpl. rewrite IH. by rewrite <- (assoc (++)).
Qed.

Lemma generate_markdown_lines secs :
  generate_markdown secs = Some (Py.join K.nl (flat_map section_lines secs)).
Proof.
  unfold generate_markdown. by rewrite for_each_render_section.
Qed.

(** ** The fence tag (C2) *)

Lemma diagram_nonempty code : looks_like_diagram code = true → truthy code = true.
Proof. by destruct code. Qed.

(** C2: for a subsection whose code holds one of the two box-drawing
    characters the renderer appends the line [```typescript] and then
    overwrites the empty line it appended after it, not the fence line,
    with [```text]: the block opens with the typescript fence and the text
    fence is its first line.  A non-empty code without these characters is
    fenced as typescript. *)
Theorem diagram_fence_tag md sub code :
  sub_code sub = Some code →
  (looks_like_diagram code = true →
   render_subsection md sub =
     Some (md ++ heading_block sub ++ content_block sub
           ++ [K.fence_typescript; K.fence_text; Py.strip code; K.fence_end ++ K.nl]
           ++ decisions_block sub ++ notes_block sub))
  ∧ (looks_like_diagram code = false → truthy code = true →
     render_subsection md sub =
       Some (md ++ heading_block sub ++ content_block sub
             ++ [K.fence_typescript; Py.strip code; K.fence_end ++ K.nl]
             ++ decisions_block sub ++ notes_block sub)).
Proof.
  intros Hcode. rewrite render_subsection_lines.
  unfold subsection_lines, code_block, fence_lines. rewrite Hcode. simpl.
  split.
  - intros H. by rewrite H, (diagram_nonempty _ H).
  - intros H Ht. by rewrite H, Ht.
Qed.

(** ** Missing fields (C10) *)

(** A title or an id is assigned only by its marker line, read in the
    state of the record; a record is created without either. *)
Lemma step_keeps_titles st line st' :
  step st line = Some st' →
  (sec_title <$> current_section st' = sec_title <$> current_section st
   ∨ (state st = STATE_IN_SECTION
      ∧ Py.startswith K.title_marker (Py.strip line) = true)
   ∨ (state st = STATE_IN_SECTIONS_ARRAY ∧ current_section st' = Some new_section))
  ∧ (sub_title <$> current_subsection st' = sub_title <$> current_subsection st
     ∨ (state st = STATE_IN_SUBSECTION
        ∧ Py.startswith K.title_marker (Py.strip line) = true)
     ∨ (state st = STATE_IN_SUBSECTIONS_ARRAY
        ∧ current_subsection st' = Some new_subsection)).
Proof.
  destruct st as [s secs [sec|] [sub|] bf];
    unfold step, update_section, update_subsection; simpl;
    destruct s; simpl; intros H;
    repeat (first
      [ discriminate H
      | injection H as <-
      | match type of H with
        | context [if ?b then _ else _] => destruct b eqn:?
        | context [mbind _ ?o] => destruct o eqn:?; simpl in H
        end ]);
    simpl; split; auto.
Qed.

Lemma step_keeps_ids st line st' :
  step st line = Some st' →
  (sec_id <$> current_section st' = sec_id <$> current_section st
   ∨ (state st = STATE_IN_SECTION
      ∧ Py.startswith K.id_marker (Py.strip line) = true)
   ∨ (state st = STATE_IN_SECTIONS_ARRAY ∧ current_section st' = Some new_section))
  ∧ (sub_id <$> current_subsection st' = sub_id <$> current_subsection st
     ∨ (state st = STATE_IN_SUBSECTION
        ∧ Py.startswith K.id_marker (Py.strip line) = true)
     ∨ (state st = STATE_IN_SUBSECTIONS_ARRAY
        ∧ current_subsection st' = Some new_subsection)).
Proof.
  destruct st as [s secs [sec|] [sub|] bf];
    unfold step, update_section, update_subsection; simpl;
    destruct s; simpl; intros H;
    repeat (first
      [ discriminate H
      | injection H as <-
      | match type of H with
        | context [if ?b then _ else _] => destruct b eqn:?
        | context [mbind _ ?o] => destruct o eqn:?; simpl in H
        end ]);
    simpl; split; auto.
Qed.

(** C10: the renderer never raises.  A section or subsection without title
    gets the heading text [Unknown], one without id gets an id comment with
    an empty id, and a subsection without content, code, notes and
    decisions gets no block after its heading.  The extractor creates a
    record without title and id and assigns them only on their marker
    lines, so records opened and closed with no field marker in between are
    rendered this way. *)
Theorem missing_fields_render :
  (∀ sections, ∃ out, generate_markdown sections = Some out)
  ∧ (∀ md section,
       ∃ l1 l2,
         render_section md section
           = Some (md ++ [l1; l2] ++ flat_map subsection_lines (sec_subsections section))
         ∧ (sec_title section = None →
            l1 = K.h1 ++ default K.empty (sec_icon section) ++ K.space ++ Py.lit "Unknown")
         ∧ (sec_id section = None → l2 = Py.lit "<!-- id:  -->" ++ K.nl))
  ∧ (∀ md sub,
       ∃ l1 l2 blocks,
         render_subsection md sub = Some (md ++ [l1; l2] ++ blocks)
         ∧ (sub_title sub = None → l1 = Py.lit "## Unknown")
         ∧ (sub_id sub = None → l2 = Py.lit "<!-- id:  -->" ++ K.nl)
         ∧ (sub_content sub = None → sub_code sub = None →
            sub_notes sub = None → sub_decisions sub = None → blocks = []))
  ∧ (∀ st line st',
       step st line = Some st' →
       (sec_title <$> current_section st' = sec_title <$> current_section st
        ∨ (state st = STATE_IN_SECTION
           ∧ Py.startswith K.title_marker (Py.strip line) = true)
        ∨ (state st = STATE_IN_SECTIONS_ARRAY ∧ current_section st' = Some new_section))
       ∧ (sub_title <$> current_subsection st' = sub_title <$> current_subsection st
          ∨ (state st = STATE_IN_SUBSECTION
             ∧ Py.startswith K.title_marker (Py.strip line) = true)
          ∨ (state st = STATE_IN_SUBSECTIONS_ARRAY
             ∧ current_subsection st' = Some new_subsection))
       ∧ (sec_id <$> current_section st' = sec_id <$> current_section st
          ∨ (state st = STATE_IN_SECTION
             ∧ Py.startswith K.id_marker (Py.strip line) = true)
          ∨ (state st = STATE_IN_SECTIONS_ARRAY ∧ current_section st' = Some new_section))
       ∧ (sub_id <$> current_subsection st' = sub_id <$> current_subsection st
          ∨ (state st = STATE_IN_SUBSECTION
             ∧ Py.startswith K.id_marker (Py.strip line) = true)
          ∨ (state st = STATE_IN_SUBSECTIONS_ARRAY
             ∧ current_subsection st' = Some new_subsection)))
  ∧ parse_ts_file bare_records_source = Some [mkSection [new_subsection] None None None]
  ∧ pipeline bare_records_source = Some bare_records_output.
Proof.
  split; [|split; [|split; [|split; [|split]]]].
  - intros secs. rewrite generate_markdown_lines. by eexists.
  - intros md section. rewrite render_section_lines.
    unfold section_lines, section_heading. do 2 eexists.
    split; [reflexivity|]. split; by intros ->.
  - intros md sub. rewrite render_subsection_lines.
    unfold subsection_lines, heading_block. do 3 eexists.
    split; [reflexivity|]. split; [by intros ->|]. split; [by intros ->|].
    unfold content_block, code_block, decisions_block, notes_block.
    by intros -> -> -> ->.
  - intros st line st' H.
    destruct (step_keeps_titles _ _ _ H) as [H1 H2].
    destruct (step_keeps_ids _ _ _ H) as [H3 H4]. done.
  - vm_compute. reflexivity.
  - vm_compute. reflexivity.
Qed.

(** ** The concrete scenario (C3) *)

(** C3: the source with the section [intro] and its subsection [overview]
    is extracted to that one record, and the record is rendered as the
    heading [# 📘 Introduction], its id comment, the heading [## Overview],
    its id comment, the prose lines [Hello] and [World], the heading
    [### Notes] and the two bullets, with one empty line between blocks. *)
Theorem scenario_renders :
  parse_ts_file scenario_source = Some [scenario_section]
  ∧ generate_markdown [scenario_section] = Some (Py.join K.nl scenario_output_lines)
  ∧ pipeline scenario_source = Some (Py.join K.nl scenario_output_lines)
  ∧ Py.split_c K.NL <$> pipeline scenario_source = Some scenario_output_lines.
Proof.
  repeat split; vm_compute; reflexivity.
Qed.

(** ** Multi-line fields (C5) *)

Lemma for_each_app {A B : Type} (f : A → B → option A) l1 l2 : ∀ a,
  for_each f a (l1 ++ l2) = a' ← for_each f a l1; for_each f a' l2.
Proof.
  induction l1 as [|x l1 IH]; intros a; simpl; [done|].
  destruct (f a x) as [a'|]; simpl; [apply IH | done].
Qed.

Ltac decide_startswith :=
  repeat match goal with
  | |- context [Py.startswith ?m (?p ++ ?t)] =>
      let b := eval vm_compute in (Py.startswith m (p ++ t)) in
      change (Py.startswith m (p ++ t)) with b
  end.

(** A field marker whose value does not end on the same line opens the
    capture with the rest of the line as first fragment. *)
Lemma step_open_capture st line cap frag :
  state st = STATE_IN_SUBSECTION → capturing cap = true →
  Py.startswith (capture_marker cap) (Py.strip line) = true →
  Py.split1 (capture_marker cap) line !! 1%nat = Some frag →
  single_line frag = false →
  step st line =
    Some (mkPState cap (sections st) (current_section st) (current_subsection st) [frag]).
Proof.
  intros Hst Hcap Hs Hfrag Hsingle.
  destruct st as [s secs cs csub bf]. simpl in *. subst s.
  apply startswith_inv in Hs as [t Ht].
  unfold step. simpl. rewrite Ht.
  destruct cap; try discriminate; simpl in *; decide_startswith; simpl;
    rewrite Hfrag; simpl; by rewrite Hsingle.
Qed.

Lemma run_capture_keep mids : ∀ st,
  capturing (state st) = true →
  Forall (λ l, closes_capture (Py.strip l) = false) mids →
  run st mids =
    Some (mkPState (state st) (sections st) (current_section st)
            (current_subsection st) (buffer st ++ mids)).
Proof.
  unfold run.
  induction mids as [|l mids IH]; intros st Hc H; simpl.
  - rewrite app_nil_r. by destruct st.
  - apply Forall_cons in H as [Hl H].
    rewrite (step_capture_keep st l Hc Hl). simpl.
    rewrite IH by done. simpl. by rewrite <- (assoc (++)).
Qed.



Lemma multiline_capture st sub cap line0 frag mids closing :
  state st = STATE_IN_SUBSECTION → current_subsection st = Some sub →
  capturing cap = true →
  Py.startswith (capture_marker cap) (Py.strip line0) = true →
  Py.split1 (capture_marker cap) line0 !! 1%nat = Some frag →
  single_line frag = false →
  Forall (λ l, closes_capture (Py.strip l) = false) mids →
  closes_capture (Py.strip closing) = true →
  let lines := flush (closing_value closing) (frag :: mids) in
  run st (line0 :: mids ++ [closing])
    = Some (mkPState STATE_IN_SUBSECTION (sections st) (current_section st)
              (Some (capture_field cap (Py.join K.nl lines) sub)) lines).
Proof.
  intros Hst Hsub Hcap Hs Hfrag Hsingle Hmids Hclose lines.
  unfold run. simpl.
  rewrite (step_open_capture st line0 cap frag) by done. simpl.
  rewrite for_each_app.
  fold (run (mkPState cap (sections st) (current_section st)
               (current_subsection st) [frag]) mids).
  rewrite run_capture_keep by done. simpl.
  rewrite (step_capture_close _ closing sub) by done. simpl.
  by destruct cap.
Qed.



Lemma step_single_line st sub cap line0 frag v :
  state st = STATE_IN_SUBSECTION → current_subsection st = Some sub →
  capturing cap = true →
  Py.startswith (capture_marker cap) (Py.strip line0) = true →
  Py.split1 (capture_marker cap) line0 !! 1%nat = Some frag →
  single_line frag = true →
  Py.rsplit1 K.backtick frag !! 0%nat = Some v →
  step st line0
    = Some (mkPState STATE_IN_SUBSECTION (sections st) (current_section st)
              (Some (capture_field cap v sub)) (buffer st)).
Proof.
  intros Hst Hsub Hcap Hs Hfrag Hsingle Hv.
  destruct st as [s secs cs csub bf]. simpl in *. subst s csub.
  apply startswith_inv in Hs as [t Ht].
  unfold step. simpl. rewrite Ht.
  destruct cap; try discriminate; simpl in *; decide_startswith; simpl;
    rewrite Hfrag; simpl; rewrite Hsingle, Hv; reflexivity.
Qed.







(** ** The render order (C4) *)

Lemma run_app l1 l2 st :
  run st (l1 ++ l2) = st' ← run st l1; run st' l2.
Proof. apply for_each_app. Qed.

Lemma writes_app b1 b2 f1 f2 :
  writes b1 f1 → writes b2 f2 → writes (b1 ++ b2) (λ sub, f2 (f1 sub)).
Proof.
  intros H1 H2 st sub Hst Hsub.
  destruct (H1 st sub Hst Hsub) as [buf1 E1].
  rewrite run_app, E1. simpl.
  destruct (H2 (mkPState STATE_IN_SUBSECTION (sections st) (current_section st)
                  (Some (f1 sub)) buf1) (f1 sub) eq_refl eq_refl) as [buf2 E2].
  rewrite E2. by exists buf2.
Qed.

(** A multi-line content or code field is such a block. *)
Lemma writes_capture cap line0 frag mids closing :
  capturing cap = true →
  Py.startswith (capture_marker cap) (Py.strip line0) = true →
  Py.split1 (capture_marker cap) line0 !! 1 = Some frag →
  single_line frag = false →
  Forall (λ l, closes_capture (Py.strip l) = false) mids →
  closes_capture (Py.strip closing) = true →
  writes (line0 :: mids ++ [closing])
    (capture_field cap (Py.join K.nl (flush (closing_value closing) (frag :: mids)))).
Proof.
  intros Hcap Hs Hfrag Hsingle Hmids Hclose st sub Hst Hsub.
  eexists. by apply multiline_capture.
Qed.

Lemma step_open_list st sub lst line :
  state st = STATE_IN_SUBSECTION → current_subsection st = Some sub →
  listing lst = true →
  Py.startswith (list_marker lst) (Py.strip line) = true →
  step st line
  = Some (mkPState lst (sections st) (current_section st)
            (Some (list_field lst [] sub)) (buffer st)).
Proof.
  intros Hst Hsub Hlst Hs.
  destruct st as [s secs cs csub bf]. simpl in *. subst s csub.
  apply startswith_inv in Hs as [t Ht].
  unfold step, update_subsection. simpl. rewrite Ht.
  destruct lst; try discriminate; simpl; decide_startswith; reflexivity.
Qed.

Lemma step_list_item st sub lst items line :
  state st = lst → listing lst = true →
  current_subsection st = Some (list_field lst items sub) →
  is_item line = true →
  step st line
  = Some (mkPState lst (sections st) (current_section st)
            (Some (list_field lst (items ++ [list_item (Py.strip line)]) sub))
            (buffer st)).
Proof.
  intros Hst Hlst Hsub Hitem.
  destruct st as [s secs cs csub bf]. simpl in *. subst s csub.
  unfold step, is_item in *. simpl.
  destruct lst; try discriminate; simpl; by rewrite Hitem.
Qed.

Lemma run_list_items lst sub lines : ∀ st items,
  state st = lst → listing lst = true →
  current_subsection st = Some (list_field lst items sub) →
  Forall (λ l, is_item l = true) lines →
  run st lines
  = Some (mkPState lst (sections st) (current_section st)
            (Some (list_field lst
                     (items ++ map (λ l, list_item (Py.strip l)) lines) sub))
            (buffer st)).
Proof.
  unfold run.
  induction lines as [|l lines IH]; intros st items Hst Hlst Hsub H; simpl.
  - rewrite app_nil_r, <- Hsub, <- Hst. by destruct st.
  - apply Forall_cons in H as [Hl H].
    rewrite (step_list_item st sub lst items l) by done. simpl.
    rewrite (IH _ (items ++ [list_item (Py.strip l)])) by done.
    simpl. by rewrite <- (assoc (++)).
Qed.

Lemma step_close_list st lst line :
  state st = lst → listing lst = true → closes_list line = true →
  step st line = Some (set_state STATE_IN_SUBSECTION st).
Proof.
  intros Hst Hlst Hclose.
  destruct st as [s secs cs csub bf]. simpl in *. subst s.
  unfold closes_list, is_item in Hclose.
  apply andb_prop in Hclose as [Hitem Hclose].
  apply negb_true_iff in Hitem.
  unfold step. simpl.
  destruct lst; try discriminate; simpl; by rewrite Hitem, Hclose.
Qed.

(** A notes or decisions list, one item per line, is such a block. *)
Lemma writes_list lst opening items closing :
  listing lst = true →
  Py.startswith (list_marker lst) (Py.strip opening) = true →
  Forall (λ l, is_item l = true) items →
  closes_list closing = true →
  writes (opening :: items ++ [closing])
    (list_field lst (map (λ l, list_item (Py.strip l)) items)).
Proof.
  intros Hlst Hopen Hitems Hclose st sub Hst Hsub.
  exists (buffer st). unfold run. simpl.
  rewrite (step_open_list st sub lst opening) by done. simpl.
  rewrite for_each_app.
  pose proof (run_list_items lst sub items
                (mkPState lst (sections st) (current_section st)
                   (Some (list_field lst [] sub)) (buffer st)) []
                eq_refl Hlst eq_refl Hitems) as E.
  unfold run in E. rewrite E. simpl.
  rewrite (step_close_list _ lst closing) by done. reflexivity.
Qed.

Lemma writes_commute b1 b2 f1 f2 st sub :
  writes b1 f1 → writes b2 f2 → (∀ s, f1 (f2 s) = f2 (f1 s)) →
  state st = STATE_IN_SUBSECTION → current_subsection st = Some sub →
  ∃ buf12 buf21,
    run st (b1 ++ b2)
    = Some (mkPState STATE_IN_SUBSECTION (sections st) (current_section st)
              (Some (f2 (f1 sub))) buf12)
    ∧ run st (b2 ++ b1)
      = Some (mkPState STATE_IN_SUBSECTION (sections st) (current_section st)
                (Some (f2 (f1 sub))) buf21).
Proof.
  intros H1 H2 Hcomm Hst Hsub.
  destruct (writes_app b1 b2 f1 f2 H1 H2 st sub Hst Hsub) as [buf12 E12].
  destruct (writes_app b2 b1 f2 f1 H2 H1 st sub Hst Hsub) as [buf21 E21].
  exists buf12, buf21. split; [done|]. by rewrite <- Hcomm.
Qed.

(** C4: whatever the subsection holds, the renderer appends its heading,
    then the content block, the code block, the decisions block and the
    notes block, in this order, each empty when the field is missing or
    empty.  The assignments to these four fields commute, so two blocks of
    source lines that write different fields (a multi-line content or code
    field, a notes or decisions list) leave the same record in either
    order, and with it the same output; a source that lists the fields in
    the opposite order is rendered in the fixed order. *)
Theorem render_order_fixed :
  (∀ md sub,
     render_subsection md sub =
       Some (md ++ heading_block sub ++ content_block sub ++ code_block sub
             ++ decisions_block sub ++ notes_block sub))
  ∧ (∀ sub c k d n,
       let a1 := sub_set_content c in let a2 := sub_set_code k in
       let a3 := sub_set_decisions d in let a4 := sub_set_notes n in
       a1 (a2 sub) = a2 (a1 sub) ∧ a1 (a3 sub) = a3 (a1 sub)
       ∧ a1 (a4 sub) = a4 (a1 sub) ∧ a2 (a3 sub) = a3 (a2 sub)
       ∧ a2 (a4 sub) = a4 (a2 sub) ∧ a3 (a4 sub) = a4 (a3 sub)
       ∧ a4 (a3 (a2 (a1 sub))) = a1 (a2 (a3 (a4 sub))))
  ∧ (∀ b1 b2 f1 f2 st sub,
       writes b1 f1 → writes b2 f2 → (∀ s, f1 (f2 s) = f2 (f1 s)) →
       state st = STATE_IN_SUBSECTION → current_subsection st = Some sub →
       ∃ buf12 buf21,
         run st (b1 ++ b2)
         = Some (mkPState STATE_IN_SUBSECTION (sections st) (current_section st)
                   (Some (f2 (f1 sub))) buf12)
         ∧ run st (b2 ++ b1)
           = Some (mkPState STATE_IN_SUBSECTION (sections st) (current_section st)
                     (Some (f2 (f1 sub))) buf21))
  ∧ (∀ cap line0 frag mids closing,
       capturing cap = true →
       Py.startswith (capture_marker cap) (Py.strip line0) = true →
       Py.split1 (capture_marker cap) line0 !! 1 = Some frag →
       single_line frag = false →
       Forall (λ l, closes_capture (Py.strip l) = false) mids →
       closes_capture (Py.strip closing) = true →
       writes (line0 :: mids ++ [closing])
         (capture_field cap
            (Py.join K.nl (flush (closing_value closing) (frag :: mids)))))
  ∧ (∀ lst opening items closing,
       listing lst = true →
       Py.startswith (list_marker lst) (Py.strip opening) = true →
       Forall (λ l, is_item l = true) items →
       closes_list closing = true →
       writes (opening :: items ++ [closing])
         (list_field lst (map (λ l, list_item (Py.strip l)) items)))
  ∧ pipeline reversed_fields_source = Some reversed_fields_output.
Proof.
  split; [|split; [|split; [|split; [|split]]]].
  - intros md sub. apply render_subsection_lines.
  - intros sub c k d n. repeat split.
  - intros b1 b2 f1 f2 st sub. apply writes_commute.
  - apply writes_capture.
  - apply writes_list.
  - vm_compute. reflexivity.
Qed.

(** ** Declaration order (C6) *)

Lemma eqb_true a b : Py.eqb a b = true → a = b.
Proof. unfold Py.eqb. apply bool_decide_eq_true. Qed.

Lemma step_transition st line st' : step st line = Some st' → transition st line st'.
Proof.
  destruct st as [s secs [sec|] [sub|] bf];
    unfold step, update_section, update_subsection; simpl;
    destruct s; simpl; intros H;
    repeat (first
      [ discriminate H
      | injection H as <-
      | match type of H with
        | context [if ?b then _ else _] => destruct b eqn:?
        | context [mbind _ ?o] => destruct o eqn:?; simpl in H
        end ]).
  all: try (by apply T_other).
  all: try (by apply T_open_section; simpl; try done; apply eqb_true).
  all: try (by eapply T_close_section; simpl).
  all: try (by apply T_open_subsection; simpl; try done; apply eqb_true).
  all: by eapply T_close_subsection; simpl.
Qed.

Lemma run_snoc ls l st :
  run init_state (ls ++ [l]) = Some st ↔
  ∃ st0, run init_state ls = Some st0 ∧ step st0 l = Some st.
Proof.
  unfold run. rewrite for_each_app. simpl. split.
  - destruct (for_each step init_state ls) as [st0|]; simpl; [|done].
    destruct (step st0 l) as [st1|] eqn:E; simpl; [|done].
    intros [= <-]. by exists st0.
  - intros (st0 & -> & E). simpl. by rewrite E.
Qed.

Lemma section_opened_at_snoc ls l k listed :
  section_opened_at ls k listed → section_opened_at (ls ++ [l]) k listed.
Proof.
  intros (st & line & Hrun & Hk & H). exists st, line.
  pose proof (lookup_lt_Some _ _ _ Hk).
  rewrite take_app_le by lia. split; [done|]. split; [|done].
  by apply lookup_app_l_Some.
Qed.

Lemma subsection_opened_at_snoc ls l k listed sublisted :
  subsection_opened_at ls k listed sublisted →
  subsection_opened_at (ls ++ [l]) k listed sublisted.
Proof.
  intros (st & line & sec & Hrun & Hk & H). exists st, line, sec.
  pose proof (lookup_lt_Some _ _ _ Hk).
  rewrite take_app_le by lia. split; [done|]. split; [|done].
  by apply lookup_app_l_Some.
Qed.

Lemma located_snoc ls l listed sec o :
  located ls listed sec o → located (ls ++ [l]) listed sec o.
Proof.
  intros (H1 & H2 & H3). split; [by apply section_opened_at_snoc|].
  split; [done|]. intros i k Hi. by apply subsection_opened_at_snoc, H3.
Qed.

Lemma located_same_subsections ls listed sec sec' o :
  sec_subsections sec' = sec_subsections sec →
  located ls listed sec o → located ls listed sec' o.
Proof. unfold located. by intros ->. Qed.

Lemma section_opened_now ls l st :
  run init_state ls = Some st → state st = STATE_IN_SECTIONS_ARRAY →
  Py.strip l = K.open_brace →
  section_opened_at (ls ++ [l]) (length ls) (sections st).
Proof.
  intros Hrun Hs Hl. exists st, l. rewrite take_app_length.
  split; [done|]. split; [|done]. by rewrite list_lookup_middle.
Qed.

Lemma subsection_opened_now ls l st sec :
  run init_state ls = Some st → state st = STATE_IN_SUBSECTIONS_ARRAY →
  Py.strip l = K.open_brace → current_section st = Some sec →
  subsection_opened_at (ls ++ [l]) (length ls) (sections st) (sec_subsections sec).
Proof.
  intros Hrun Hs Hl Hsec. exists st, l, sec. rewrite take_app_length.
  split; [done|]. split; [|done]. by rewrite list_lookup_middle.
Qed.

Lemma sorted_snoc (l : list nat) n :
  StronglySorted lt l → Forall (λ k, k < n) l → StronglySorted lt (l ++ [n]).
Proof.
  induction 1 as [|a l Hl IH Ha]; intros Hn; simpl.
  - repeat constructor.
  - apply Forall_cons in Hn as [Han Hn]. constructor; [by apply IH|].
    apply Forall_app. split; [done|]. by constructor.
Qed.

Lemma bound_snoc (l : list nat) n :
  Forall (λ k, k < n) l → Forall (λ k, k < S n) (l ++ [n]).
Proof.
  intros H. apply Forall_app. split.
  - eapply Forall_impl; [exact H|]. simpl. lia.
  - constructor; [lia|constructor].
Qed.

Lemma bound_weaken (l : list nat) n :
  Forall (λ k, k < n) l → Forall (λ k, k < S n) l.
Proof. intros H. eapply Forall_impl; [exact H|]. simpl. lia. Qed.

Lemma order_inv_init : order_inv [] init_state.
Proof.
  exists [], []. simpl. split; [done|].
  split; [intros j o sec Ho; by rewrite lookup_nil in Ho|].
  repeat split; constructor.
Qed.

Lemma same_subsections (cs cs' : option Section) sec :
  sec_subsections <$> cs' = sec_subsections <$> cs → cs = Some sec →
  ∃ sec', cs' = Some sec' ∧ sec_subsections sec' = sec_subsections sec.
Proof.
  intros H ->. destruct cs' as [sec'|]; simpl in H; [|done].
  exists sec'. split; [done|]. by injection H.
Qed.

Lemma order_inv_step ls l st st' :
  run init_state ls = Some st → step st l = Some st' →
  order_inv ls st → order_inv (ls ++ [l]) st'.
Proof.
  intros Hrun Hstep (opens & cur & Hlen & Hloc & Hsorted & Hbound & Hcur).
  assert (length (ls ++ [l]) = S (length ls)) as Hlen' by (rewrite length_app; simpl; lia).
  unfold order_inv. rewrite Hlen'.
  destruct (step_transition _ _ _ Hstep)
    as [Hs Hl Hs' Hsec Hcs | sec Hs Hs' Hcs Hsec | Hs Hl Hs' Hsec Hcs Hcsub
        | sub Hs Hs' Hsec Hcsub Hcs | Hlevel Hsec Hcs].
  - rewrite Hs in Hcur. simpl in Hcur. subst cur. rewrite app_nil_r in *.
    exists opens, [length ls]. rewrite Hsec, Hs'. simpl.
    split; [done|]. split; [intros; by apply located_snoc, Hloc|].
    split; [by apply sorted_snoc|]. split; [by apply bound_snoc|].
    exists (length ls), [], new_section. split; [done|]. split; [done|].
    split; [by apply section_opened_now|]. split; [done|].
    intros i k Hi. simpl in Hi. by rewrite lookup_nil in Hi.
  - rewrite Hs in Hcur. simpl in Hcur.
    destruct Hcur as (k & subs & sec0 & -> & Hsec0 & Hcurloc).
    rewrite Hcs in Hsec0. injection Hsec0 as <-.
    exists (opens ++ [(k, subs)]), []. rewrite Hsec, Hs'. simpl.
    unfold opening_lines in *. rewrite flat_map_app. simpl. rewrite !app_nil_r.
    split; [rewrite !length_app; simpl; lia|].
    split; [|split; [done|split; [by apply bound_weaken|done]]].
    intros j o s Ho Hj. apply lookup_snoc_Some in Ho as [[Hlt Ho]|[-> <-]].
    + rewrite lookup_app_l in Hj by lia. rewrite take_app_le by lia.
      by apply located_snoc, Hloc.
    + rewrite Hlen in Hj |- *. rewrite list_lookup_middle in Hj by done.
      injection Hj as <-. rewrite take_app_length. by apply located_snoc.
  - rewrite Hs in Hcur. simpl in Hcur.
    destruct Hcur as (k & subs & sec & -> & Hsec0 & Hcurloc).
    exists opens, ((k :: subs) ++ [length ls]). rewrite Hsec, Hs', Hcs. simpl.
    split; [done|]. split; [intros; by apply located_snoc, Hloc|].
    rewrite (app_comm_cons subs [length ls] k), (assoc (++) (opening_lines opens)).
    split; [by apply sorted_snoc|]. split; [by apply bound_snoc|].
    exists k, subs, (length ls), sec. split; [done|]. split; [done|].
    split; [by apply located_snoc|]. by apply subsection_opened_now.
  - rewrite Hs in Hcur. simpl in Hcur.
    destruct Hcur as (k & subs & k2 & sec & -> & Hsec0 & (Ho1 & Ho2 & Ho3) & Hsub).
    exists opens, (k :: subs ++ [k2]). rewrite Hsec, Hs', Hcs, Hsec0. simpl.
    split; [done|]. split; [intros; by apply located_snoc, Hloc|].
    split; [done|]. split; [by apply bound_weaken|].
    exists k, (subs ++ [k2]), (sec_append_sub sub sec).
    split; [done|]. split; [done|]. simpl in *.
    split; [by apply section_opened_at_snoc|]. simpl.
    split; [rewrite !length_app; simpl; lia|].
    intros i k' Hi. apply lookup_snoc_Some in Hi as [[Hlt Hi]|[-> <-]].
    + rewrite take_app_le by lia. by apply subsection_opened_at_snoc, Ho3.
    + rewrite Ho2, take_app_length. by apply subsection_opened_at_snoc.
  - exists opens, cur. rewrite Hsec, Hlevel.
    split; [done|]. split; [intros; by apply located_snoc, Hloc|].
    split; [done|]. split; [by apply bound_weaken|].
    destruct (level (state st)) as [|[|n]]; [done| |].
    + destruct Hcur as (k & subs & sec & -> & Hsec0 & Hcurloc).
      destruct (same_subsections _ _ _ Hcs Hsec0) as (sec' & Hsec' & Hsame).
      exists k, subs, sec'. split; [done|]. split; [done|].
      by apply located_snoc, (located_same_subsections _ _ sec).
    + destruct Hcur as (k & subs & k2 & sec & -> & Hsec0 & Hcurloc & Hsub).
      destruct (same_subsections _ _ _ Hcs Hsec0) as (sec' & Hsec' & Hsame).
      exists k, subs, k2, sec'. split; [done|]. split; [done|].
      split; [by apply located_snoc, (located_same_subsections _ _ sec)|].
      rewrite Hsame. by apply subsection_opened_at_snoc.
Qed.

Lemma run_order_inv ls : ∀ st, run init_state ls = Some st → order_inv ls st.
Proof.
  induction ls as [|l ls IH] using rev_ind; intros st Hrun.
  - injection Hrun as <-. apply order_inv_init.
  - apply run_snoc in Hrun as (st0 & Hrun0 & Hstep).
    apply (order_inv_step ls l st0); [done|done|by apply IH].
Qed.

(** Records are appended on close and stay where they are. *)
Lemma step_sections_grow st line st' :
  step st line = Some st' → ∃ new, sections st' = sections st ++ new.
Proof.
  intros H. destruct (step_transition _ _ _ H) as [? ? ? E|sec ? ? ? E|? ? ? E|? ? ? E|? E];
    try (exists []; by rewrite app_nil_r).
  by exists [sec].
Qed.

Lemma run_sections_grow ls : ∀ st st',
  run st ls = Some st' → ∃ new, sections st' = sections st ++ new.
Proof.
  unfold run. induction ls as [|l ls IH]; intros st st' H; simpl in H.
  - injection H as <-. exists []. by rewrite app_nil_r.
  - destruct (step st l) as [st1|] eqn:E; [|done]. simpl in H.
    destruct (step_sections_grow _ _ _ E) as [n1 E1].
    destruct (IH _ _ H) as [n2 E2]. exists (n1 ++ n2).
    by rewrite E2, E1, (assoc (++)).
Qed.

(** Decides the tests of [step] on a stripped line that is known. *)
Ltac decide_tests :=
  repeat match goal with
  | |- context [Py.startswith ?m ?k] =>
      let b := eval vm_compute in (Py.startswith m k) in
      match b with true => idtac | false => idtac end;
      change (Py.startswith m k) with b
  | |- context [Py.eqb ?m ?k] =>
      let b := eval vm_compute in (Py.eqb m k) in
      match b with true => idtac | false => idtac end;
      change (Py.eqb m k) with b
  end.

Lemma step_close_subsection st sec sub l :
  state st = STATE_IN_SUBSECTION → current_section st = Some sec →
  current_subsection st = Some sub → is_close l →
  step st l = Some (mkPState STATE_IN_SUBSECTIONS_ARRAY (sections st)
                      (Some (sec_append_sub sub sec)) (Some sub) (buffer st)).
Proof.
  intros Hst Hsec Hsub Hl. destruct st as [s secs cs csub bf]. simpl in *. subst.
  unfold step. simpl. destruct Hl as [-> | ->]; decide_tests; reflexivity.
Qed.

Lemma step_close_section st sec l :
  state st = STATE_IN_SECTION → current_section st = Some sec → is_close l →
  step st l = Some (mkPState STATE_IN_SECTIONS_ARRAY (sections st ++ [sec])
                      (Some sec) (current_subsection st) (buffer st)).
Proof.
  intros Hst Hsec Hl. destruct st as [s secs cs csub bf]. simpl in *. subst.
  unfold step. simpl. destruct Hl as [-> | ->]; decide_tests; reflexivity.
Qed.

Lemma keeps_step n subs st l st' :
  transition st l st' → keeps n subs st → keeps n subs st'.
Proof.
  intros [Hs Hl Hs' Hsec Hcs | sec Hs Hs' Hcs Hsec | Hs Hl Hs' Hsec Hcs Hcsub
         | sub Hs Hs' Hsec Hcsub Hcs | Hlevel Hsec Hcs]
         [(Hn & Hlv & sec0 & Hsec0 & Hpre) | (sec0 & Hn & Hpre)];
    try (right; exists sec0; by rewrite Hsec);
    try (right; exists sec0; rewrite Hsec; split; [by apply lookup_app_l_Some|done]).
  - rewrite Hs in Hlv. simpl in Hlv. lia.
  - right. exists sec. rewrite Hsec, <- Hn, list_lookup_middle by done.
    split; [done|]. rewrite Hcs in Hsec0. by injection Hsec0 as ->.
  - left. rewrite Hsec, Hs', Hcs. simpl. split; [done|]. split; [lia|]. by exists sec0.
  - left. rewrite Hsec, Hs', Hcs, Hsec0. simpl. split; [done|]. split; [lia|].
    exists (sec_append_sub sub sec0). split; [done|]. simpl.
    by apply prefix_app_r.
  - left. rewrite Hsec, Hlevel. split; [done|]. split; [done|].
    destruct (same_subsections _ _ _ Hcs Hsec0) as (sec' & Hsec' & Hsame).
    exists sec'. by rewrite Hsame.
Qed.

Lemma keeps_run n subs ls : ∀ st st',
  run st ls = Some st' → keeps n subs st → keeps n subs st'.
Proof.
  unfold run. induction ls as [|l ls IH]; intros st st' H Hk; simpl in H.
  - by injection H as <-.
  - destruct (step st l) as [st1|] eqn:E; [|done]. simpl in H.
    apply (IH st1); [done|]. apply (keeps_step n subs st l); [by apply step_transition|done].
Qed.

Lemma run_split ls k line stf :
  ls !! k = Some line → run init_state ls = Some stf →
  ∃ st st1, run init_state (take k ls) = Some st ∧ step st line = Some st1
            ∧ run st1 (drop (S k) ls) = Some stf.
Proof.
  intros Hk H. rewrite <- (take_drop_middle ls k line Hk), run_app in H.
  destruct (run init_state (take k ls)) as [st|]; [|done]. simpl in H.
  change (run st (line :: drop (S k) ls))
    with (st1 ← step st line; run st1 (drop (S k) ls)) in H.
  destruct (step st line) as [st1|] eqn:E; [|done]. simpl in H.
  by exists st, st1.
Qed.

Lemma closed_section_listed ls k listed sec stf :
  run init_state ls = Some stf → section_closed_at ls k listed sec →
  sections stf !! length listed = Some sec
  ∧ take (length listed) (sections stf) = listed.
Proof.
  intros Hrun (st & line & Hst & Hk & Hs & Hl & Hlisted & Hsec).
  destruct (run_split _ _ _ _ Hk Hrun) as (st' & st1 & Hst' & Hstep & Hrest).
  rewrite Hst in Hst'. injection Hst' as <-.
  rewrite (step_close_section st sec line) in Hstep by done.
  injection Hstep as <-.
  destruct (run_sections_grow _ _ _ Hrest) as [new E]. simpl in E.
  rewrite E, Hlisted, <- (assoc (++)). split.
  - by apply (list_lookup_middle listed new sec).
  - by rewrite take_app_length.
Qed.

Lemma closed_subsection_listed ls k listed sublisted sub stf sec' :
  run init_state ls = Some stf → subsection_closed_at ls k listed sublisted sub →
  sections stf !! length listed = Some sec' →
  sec_subsections sec' !! length sublisted = Some sub
  ∧ take (length sublisted) (sec_subsections sec') = sublisted.
Proof.
  intros Hrun (st & line & sec & Hst & Hk & Hs & Hl & Hlisted & Hsec & Hsub & Hcsub) Hsec'.
  destruct (run_split _ _ _ _ Hk Hrun) as (st' & st1 & Hst' & Hstep & Hrest).
  rewrite Hst in Hst'. injection Hst' as <-.
  rewrite (step_close_subsection st sec sub line) in Hstep by done.
  injection Hstep as <-.
  assert (keeps (length listed) (sublisted ++ [sub]) stf) as Hk'.
  { apply (keeps_run _ _ _ _ _ Hrest). left. simpl.
    split; [by rewrite Hlisted|]. split; [lia|].
    exists (sec_append_sub sub sec). split; [done|]. simpl. by rewrite Hsub. }
  destruct Hk' as [(Hn & _) | (sec'' & Hn & [rest Hpre])].
  - apply lookup_lt_Some in Hsec'. lia.
  - rewrite Hsec' in Hn. injection Hn as <-.
    rewrite Hpre, <- !(assoc (++)). split.
    + by apply (list_lookup_middle sublisted rest sub).
    + by rewrite take_app_length.
Qed.

(** C6: every extracted section has an opening line, an opening brace read
    in the sections array when exactly the sections listed before it had
    been appended, and every subsection of it an opening brace read in its
    subsections array when exactly the subsections listed before it had
    been appended.  Read in the order of the result, these line numbers are
    strictly increasing.  Every record is appended on close: the section a
    closing brace closes is in the result right after the sections appended
    before that line, and the subsection a closing brace closes is, in its
    section once that one is in the result, right after the subsections
    appended before that line.  The renderer writes the sections in list
    order and under each heading its subsections in list order. *)
Theorem declaration_order_preserved content secs :
  parse_ts_file content = Some secs →
  let lines := Py.split_c K.NL content in
  (∃ opens : list (nat * list nat),
     length opens = length secs
     ∧ (∀ j o sec, opens !! j = Some o → secs !! j = Some sec →
                   located lines (take j secs) sec o)
     ∧ StronglySorted lt (opening_lines opens))
  ∧ (∀ k listed sec,
       section_closed_at lines k listed sec →
       secs !! length listed = Some sec ∧ take (length listed) secs = listed)
  ∧ (∀ k listed sublisted sub sec,
       subsection_closed_at lines k listed sublisted sub →
       secs !! length listed = Some sec →
       sec_subsections sec !! length sublisted = Some sub
       ∧ take (length sublisted) (sec_subsections sec) = sublisted)
  ∧ generate_markdown secs = Some (Py.join K.nl (flat_map section_lines secs))
  ∧ ∀ sec, section_lines sec
           = section_heading sec ++ flat_map subsection_lines (sec_subsections sec).
Proof.
  intros H lines. unfold parse_ts_file in H. subst lines.
  destruct (run init_state (Py.split_c K.NL content)) as [st|] eqn:Hrun; [|done].
  injection H as <-.
  destruct (run_order_inv _ _ Hrun) as (opens & cur & Hlen & Hloc & Hsorted & _ & _).
  split; [|split; [|split; [|split; [apply generate_markdown_lines|done]]]].
  - exists opens. split; [done|]. split; [done|].
    clear -Hsorted. induction (opening_lines opens) as [|a l IH]; [constructor|].
    simpl in Hsorted. apply StronglySorted_inv in Hsorted as [Hl Ha].
    constructor; [by apply IH|]. by apply Forall_app in Ha as [Ha _].
  - intros k listed sec Hclosed.
    exact (closed_section_listed _ k listed sec st Hrun Hclosed).
  - intros k listed sublisted sub sec Hclosed Hsec.
    exact (closed_subsection_listed _ k listed sublisted sub st sec Hrun Hclosed Hsec).
Qed.

(** ** The script: writing after extraction (C9) and running twice (C8) *)

Lemma main_with_changes extract render w r w' :
  main_with extract render w = (r, w') → w' ≠ w →
  ∃ content sections md,
    files w !! K.source_file = Some (File content)
    ∧ extract content = Some sections ∧ render sections = Some md.
Proof.
  unfold main_with. intros H Hne.
  destruct (files w !! K.source_file) as [[content|]|]; try (by injection H as <- <-).
  destruct (extract content) as [sections|] eqn:E; try (by injection H as <- <-).
  destruct (render sections) as [md|] eqn:R; try (by injection H as <- <-).
  by exists content, sections, md.
Qed.

(** C9: the script changes the world only after reading, extraction and
    rendering have all returned.  Whatever functions stand for extraction
    and rendering, an exception raised by either ends the run with the file
    system, the previous target file included, and the output as they
    were; this holds for the script as it is written. *)
Theorem write_only_after_extraction :
  (∀ extract render w content,
     files w !! K.source_file = Some (File content) → extract content = None →
     main_with extract render w = (None, w))
  ∧ (∀ extract render w content sections,
       files w !! K.source_file = Some (File content) →
       extract content = Some sections → render sections = None →
       main_with extract render w = (None, w))
  ∧ (∀ extract render w r w',
       main_with extract render w = (r, w') → w' ≠ w →
       ∃ content sections md,
         files w !! K.source_file = Some (File content)
         ∧ extract content = Some sections ∧ render sections = Some md)
  ∧ (∀ w r w',
       main w = (r, w') → w' ≠ w →
       ∃ content sections md,
         files w !! K.source_file = Some (File content)
         ∧ parse_ts_file content = Some sections
         ∧ generate_markdown sections = Some md).
Proof.
  split; [|split; [|split]].
  - intros extract render w content Hsrc He. unfold main_with. by rewrite Hsrc, He.
  - intros extract render w content sections Hsrc He Hr.
    unfold main_with. by rewrite Hsrc, He, Hr.
  - apply main_with_changes.
  - intros w r w'. apply main_with_changes.
Qed.

Lemma mkdir_all_preserves dirs : ∀ fs b fs' p v,
  mkdir_all dirs fs = (b, fs') → fs !! p = Some v → fs' !! p = Some v.
Proof.
  induction dirs as [|d dirs IH]; intros fs b fs' p v H Hp; simpl in H.
  - by injection H as <- <-.
  - destruct (fs !! d) as [[t|]|] eqn:Hd.
    + by injection H as <- <-.
    + by apply (IH fs b).
    + apply (IH _ _ _ p v) in H; [done|].
      rewrite lookup_insert_ne; [done|]. intros ->. by rewrite Hd in Hp.
Qed.

Lemma mkdir_all_made dirs : ∀ fs fs',
  mkdir_all dirs fs = (true, fs') → Forall (λ d, fs' !! d = Some Dir) dirs.
Proof.
  induction dirs as [|d dirs IH]; intros fs fs' H; simpl in H; [constructor|].
  destruct (fs !! d) as [[t|]|] eqn:Hd; [done| |].
  - constructor; [|by apply (IH fs)]. by apply (mkdir_all_preserves dirs fs true).
  - constructor; [|by apply (IH (<[d:=Dir]> fs))].
    apply (mkdir_all_preserves dirs (<[d:=Dir]> fs) true); [done|].
    by rewrite lookup_insert_eq.
Qed.

Lemma mkdir_all_again dirs fs :
  Forall (λ d, fs !! d = Some Dir) dirs → mkdir_all dirs fs = (true, fs).
Proof.
  induction 1 as [|d dirs Hd _ IH]; simpl; [done|]. by rewrite Hd.
Qed.

Lemma makedirs_target fs :
  makedirs (dirname K.target_file) fs
  = mkdir_all (ancestors [] (dirname K.target_file)) fs.
Proof. reflexivity. Qed.

Lemma target_not_a_made_dir : K.target_file ∉ ancestors [] (dirname K.target_file).
Proof. apply (bool_decide_unpack _). vm_compute. exact I. Qed.

Lemma main_success w w1 :
  main w = (Some (), w1) →
  ∃ content sections md fs,
    files w !! K.source_file = Some (File content)
    ∧ parse_ts_file content = Some sections
    ∧ generate_markdown sections = Some md
    ∧ makedirs (dirname K.target_file) (files w) = (true, fs)
    ∧ w1 = mkWorld (<[K.target_file := File md]> fs) (stdout w ++ [summary sections]).
Proof.
  unfold main, main_with. intros H.
  destruct (files w !! K.source_file) as [[content|]|] eqn:Hsrc; try done.
  destruct (parse_ts_file content) as [sections|] eqn:Hp; try done.
  destruct (generate_markdown sections) as [md|] eqn:Hg; try done.
  destruct (makedirs (dirname K.target_file) (files w)) as [[|] fs] eqn:Hmk; try done.
  exists content, sections, md, fs.
  destruct (fs !! K.target_file) as [[t|]|]; try done; by injection H as <-.
Qed.

Lemma main_rerun w w1 :
  main w = (Some (), w1) →
  ∃ w2, main w1 = (Some (), w2) ∧ files w2 = files w1.
Proof.
  intros H. destruct (main_success _ _ H) as (content & secs & md & fs & Hsrc & Hp & Hg & Hmk & ->).
  rewrite makedirs_target in Hmk.
  pose proof (mkdir_all_preserves _ _ _ _ _ _ Hmk Hsrc) as Hsrc1.
  pose proof (mkdir_all_made _ _ _ Hmk) as Hdirs.
  eexists. unfold main, main_with. simpl.
  rewrite lookup_insert_ne by done. rewrite Hsrc1, Hp, Hg.
  rewrite makedirs_target, mkdir_all_again.
  - rewrite lookup_insert_eq. split; [reflexivity|]. simpl.
    by rewrite insert_insert_eq.
  - eapply Forall_impl; [apply Forall_and; split; [exact Hdirs|]|].
    + apply Forall_forall. intros d Hd. instantiate (1 := λ d, d ≠ K.target_file).
      simpl. intros ->. by apply target_not_a_made_dir.
    + simpl. intros d [Hd Hne]. by rewrite lookup_insert_ne.
Qed.

(** C8: the target file the script writes is determined by the text of the
    source file: two successful runs that read the same source text write
    the same target text, and a run that follows a successful run, the
    source unchanged, succeeds and leaves every file as the first run left
    it. *)
Theorem rerun_same_output :
  (∀ wa wb oa ob,
     files wa !! K.source_file = files wb !! K.source_file →
     main wa = (Some (), oa) → main wb = (Some (), ob) →
     files oa !! K.target_file = files ob !! K.target_file)
  ∧ (∀ w w1, main w = (Some (), w1) →
             ∃ w2, main w1 = (Some (), w2) ∧ files w2 = files w1)
  ∧ (∀ w w1, main w = (Some (), w1) →
             ∃ content md, files w !! K.source_file = Some (File content)
                           ∧ pipeline content = Some md
                           ∧ files w1 !! K.target_file = Some (File md)).
Proof.
  split; [|split; [apply main_rerun|]].
  - intros wa wb oa ob Hsame Ha Hb.
    destruct (main_success _ _ Ha) as (ca & sa & ma & fa & Hsa & Hpa & Hga & _ & ->).
    destruct (main_success _ _ Hb) as (cb & sb & mb & fb & Hsb & Hpb & Hgb & _ & ->).
    simpl. rewrite !lookup_insert_eq.
    rewrite Hsa, Hsb in Hsame. injection Hsame as <-.
    rewrite Hpa in Hpb. injection Hpb as <-.
    rewrite Hga in Hgb. by injection Hgb as <-.
  - intros w w1 H.
    destruct (main_success _ _ H) as (c & s & m & f & Hs & Hp & Hg & _ & ->).
    exists c, m. split; [done|]. unfold pipeline. rewrite Hp. simpl.
    split; [done|]. by rewrite lookup_insert_eq.
Qed.

(** ** The theorems at concrete inputs *)


Lemma diagram_fence_tag_witness :
  sub_code diagram_sub = Some diagram_code
  ∧ looks_like_diagram diagram_code = true
  ∧ render_subsection [] diagram_sub
    = Some [Py.lit "## Unknown"; Py.lit "<!-- id:  -->" ++ K.nl;
            Py.lit "```typescript"; Py.lit "```text"; diagram_code;
            Py.lit "```" ++ K.nl]
  ∧ pipeline diagram_source = Some diagram_output.
Proof.
  split; [reflexivity|]. split; [vm_compute; reflexivity|].
  split; [|vm_compute; reflexivity].
  destruct (diagram_fence_tag [] diagram_sub diagram_code eq_refl) as [H _].
  refine (eq_trans (H _) _); vm_compute; reflexivity.
Defined.


Lemma declaration_order_preserved_witness :
  parse_ts_file two_sections_source = Some two_sections
  ∧ (∃ opens : list (nat * list nat),
       length opens = 2
       ∧ (∀ j o sec, opens !! j = Some o → two_sections !! j = Some sec →
                     located (Py.split_c K.NL two_sections_source)
                       (take j two_sections) sec o)
       ∧ StronglySorted lt (opening_lines opens))
  ∧ (∃ listed sec,
       section_closed_at (Py.split_c K.NL two_sections_source) 22 listed sec
       ∧ length listed = 1 ∧ two_sections !! 1 = Some sec)
  ∧ (∃ listed sublisted sub sec,
       subsection_closed_at (Py.split_c K.NL two_sections_source) 20
         listed sublisted sub
       ∧ length listed = 1 ∧ length sublisted = 1
       ∧ two_sections !! 1 = Some sec
       ∧ sec_subsections sec !! 1 = Some sub).
Proof.
  assert (parse_ts_file two_sections_source = Some two_sections) as H
    by (vm_compute; reflexivity).
  split; [exact H|].
  destruct (declaration_order_preserved two_sections_source two_sections H)
    as (Ho & Hsec & Hsub & _).
  split; [exact Ho|]. split.
  - assert (section_closed_at (Py.split_c K.NL two_sections_source) 22
              (take 1 two_sections)
              (mkSection [id_sub "b1"; id_sub "b2"] (Some (Py.lit "b")) None None))
      as Hc.
    { eexists _, _. split; [vm_compute; reflexivity|].
      split; [vm_compute; reflexivity|]. split; [reflexivity|].
      split; [left; vm_compute; reflexivity|]. split; reflexivity. }
    eexists _, _. split; [exact Hc|]. split; [reflexivity|].
    exact (proj1 (Hsec _ _ _ Hc)).
  - assert (subsection_closed_at (Py.split_c K.NL two_sections_source) 20
              (take 1 two_sections) [id_sub "b1"] (id_sub "b2")) as Hc.
    { eexists _, _, _. split; [vm_compute; reflexivity|].
      split; [vm_compute; reflexivity|]. split; [reflexivity|].
      split; [left; vm_compute; reflexivity|]. split; [reflexivity|].
      split; [reflexivity|]. split; reflexivity. }
    eexists _, _, _, _. split; [exact Hc|]. split; [reflexivity|].
    split; [reflexivity|]. split; [reflexivity|].
    exact (proj1 (Hsub _ _ _ _ _ Hc eq_refl)).
Defined.

Lemma extractor_never_raises_witness :
  (∃ secs, parse_ts_file scenario_source = Some secs)
  ∧ step init_state (Py.lit "import x;") = Some init_state
  ∧ step open_state (Py.lit "icon: 'x',") = Some open_state.
Proof.
  destruct extractor_never_raises as (H1 & H2 & H3).
  split; [apply H1|]. split.
  - apply H2. vm_compute. reflexivity.
  - apply (H3 open_state (Py.lit "icon: 'x',") K.icon_marker).
    + apply (bool_decide_unpack _). vm_compute. exact I.
    + vm_compute. reflexivity.
    + vm_compute. reflexivity.
    + reflexivity.
    + discriminate.
Defined.

Lemma rerun_same_output_witness :
  ∃ w1 w2, main first_world = (Some (), w1)
           ∧ main w1 = (Some (), w2) ∧ files w2 = files w1.
Proof.
  destruct rerun_same_output as (_ & H & _).
  assert (main first_world = (Some (), (main first_world).2)) as E
    by (vm_compute; reflexivity).
  destruct (H _ _ E) as (w2 & H2 & Hf).
  exists (main first_world).2, w2. split; [exact E|]. split; [exact H2|exact Hf].
Defined.

Lemma write_only_after_extraction_witness :
  main_with (λ _, None) generate_markdown first_world = (None, first_world).
Proof.
  destruct write_only_after_extraction as (H & _).
  apply (H (λ _, None) generate_markdown first_world scenario_source).
  - vm_compute. reflexivity.
  - reflexivity.
Defined.

Lemma missing_fields_render_witness :
  ∃ l1 l2 blocks,
    render_subsection [] new_subsection = Some ([] ++ [l1; l2] ++ blocks)
    ∧ l1 = Py.lit "## Unknown"
    ∧ l2 = Py.lit "<!-- id:  -->" ++ K.nl
    ∧ blocks = [].
Proof.
  destruct missing_fields_render as (_ & _ & H & _).
  destruct (H [] new_subsection) as (l1 & l2 & blocks & E & H1 & H2 & H3).
  exists l1, l2, blocks. split; [exact E|].
  split; [exact (H1 eq_refl)|]. split; [exact (H2 eq_refl)|].
  exact (H3 eq_refl eq_refl eq_refl eq_refl).
Defined.

Lemma render_order_fixed_witness :
  ∃ buf12 buf21,
    run open_state (content_lines ++ notes_lines)
    = Some (mkPState STATE_IN_SUBSECTION [] (Some new_section)
              (Some content_and_notes) buf12)
    ∧ run open_state (notes_lines ++ content_lines)
      = Some (mkPState STATE_IN_SUBSECTION [] (Some new_section)
                (Some content_and_notes) buf21).
Proof.
  destruct render_order_fixed as (_ & _ & Hcomm & Hcap & Hlist & _).
  destruct (Hcomm content_lines notes_lines
              (sub_set_content (Py.lit "Hello" ++ K.nl ++ Py.lit "World"))
              (sub_set_notes [Py.lit "n1"]) open_state new_subsection)
    as (buf12 & buf21 & E12 & E21).
  - apply (Hcap STATE_IN_CONTENT (Py.lit "        content: `Hello") (Py.lit "Hello")
             [] (Py.lit "World`,")); try (vm_compute; reflexivity).
    constructor.
  - apply (Hlist STATE_IN_NOTES (Py.lit "        notes: [")
             [Py.lit "          'n1',"] (Py.lit "        ],"));
      try (vm_compute; reflexivity).
    repeat constructor.
  - reflexivity.
  - reflexivity.
  - reflexivity.
  - exists buf12, buf21. split; [exact E12 | exact E21].
Defined.

(** ** Quoted values: [clean_str] and the scalar fields *)

(** Commas after a character that is none are all that [rstrip(',')]
    removes, and white space after them all that [rstrip()] removes. *)
Lemma rstrip_after f g s c u :
  f c = false → Forall (λ x, g x = true) u → (∀ x, g x = true → f x = false) →
  Py.rstrip_by f (s ++ [c] ++ u) = s ++ [c] ++ u.
Proof.
  intros Hc Hu Hg. induction u as [|y u IH] using rev_ind.
  - rewrite app_nil_r. by apply rstrip_by_snoc.
  - rewrite !(assoc (++)). apply rstrip_by_snoc.
    apply Hg. apply Forall_app in Hu as [_ Hy]. by apply Forall_cons in Hy as [Hy _].
Qed.

Lemma quote_not_space q : is_quote q → Py.isspace q = false.
Proof. by intros [-> | ->]. Qed.

Lemma quote_not_comma q : is_quote q → Py.is_char K.COMMA q = false.
Proof. by intros [-> | ->]. Qed.

Lemma comma_not_space x : Py.is_char K.COMMA x = true → Py.isspace x = false.
Proof. unfold Py.is_char. intros H. by apply N.eqb_eq in H as ->. Qed.

Lemma all_comma_is_char cs : all_comma cs → Forall (λ c, Py.is_char K.COMMA c = true) cs.
Proof. intros H. eapply Forall_impl; [exact H|]. by intros c ->. Qed.

Lemma strip_quoted_value ws1 q t cs ws2 :
  is_quote q → all_space ws1 → all_comma cs → all_space ws2 →
  Py.strip (quoted_value ws1 q t cs ws2) = [q] ++ t ++ [q] ++ cs.
Proof.
  intros Hq H1 Hcs H2. unfold Py.strip, quoted_value.
  rewrite lstrip_by_app by done.
  change ([q] ++ t ++ [q] ++ cs ++ ws2) with (q :: t ++ [q] ++ cs ++ ws2).
  rewrite lstrip_by_head by (by apply quote_not_space).
  change (q :: t ++ [q] ++ cs ++ ws2) with ([q] ++ t ++ [q] ++ cs ++ ws2).
  replace ([q] ++ t ++ [q] ++ cs ++ ws2) with ((([q] ++ t) ++ [q] ++ cs) ++ ws2)
    by (by rewrite <- !(assoc (++))).
  rewrite rstrip_by_app by done.
  rewrite (rstrip_after Py.isspace (Py.is_char K.COMMA)).
  - by rewrite <- !(assoc (++)).
  - by apply quote_not_space.
  - by apply all_comma_is_char.
  - apply comma_not_space.
Qed.

Lemma rstrip_commas q t cs :
  is_quote q → all_comma cs →
  Py.rstrip_c K.COMMA ([q] ++ t ++ [q] ++ cs) = [q] ++ t ++ [q].
Proof.
  intros Hq Hcs. unfold Py.rstrip_c.
  replace ([q] ++ t ++ [q] ++ cs) with ((([q] ++ t) ++ [q]) ++ cs)
    by (by rewrite <- !(assoc (++))).
  rewrite rstrip_by_app by (by apply all_comma_is_char).
  rewrite rstrip_by_snoc by (by apply quote_not_comma).
  by rewrite <- !(assoc (++)).
Qed.

Lemma clean_str_value ws1 q t cs ws2 :
  is_quote q → all_space ws1 → all_comma cs → all_space ws2 →
  clean_str (quoted_value ws1 q t cs ws2) = t.
Proof.
  intros Hq H1 Hcs H2. unfold clean_str.
  rewrite strip_quoted_value, rstrip_commas by done.
  assert (Py.endswith [q] ([q] ++ t ++ [q]) = true) as He
    by (rewrite (assoc (++)); apply endswith_app).
  assert (Py.slice_1_m1 ([q] ++ t ++ [q]) = t) as Hs
    by (unfold Py.slice_1_m1; simpl; apply removelast_last).
  destruct Hq as [-> | ->].
  - change (Py.startswith K.squote ([K.SQUOTE] ++ t ++ [K.SQUOTE])) with true.
    unfold K.squote. rewrite He. simpl. exact Hs.
  - change (Py.startswith K.squote ([K.DQUOTE] ++ t ++ [K.DQUOTE])) with false.
    change (Py.startswith K.dquote ([K.DQUOTE] ++ t ++ [K.DQUOTE])) with true.
    unfold K.dquote. rewrite He. simpl. exact Hs.
Qed.

(** X1: [clean_str] gives back the text between the quotes.  For a value
    written as white space, a single or a double quote, a text, the same
    quote, any number of commas and white space, the result is the text,
    whatever the text holds. *)
Theorem clean_str_quoted ws1 q t cs ws2 :
  is_quote q → all_space ws1 → all_comma cs → all_space ws2 →
  clean_str (quoted_value ws1 q t cs ws2) = t.
Proof. apply clean_str_value. Qed.

Lemma strip_field_line indent mk c m ws1 q t cs ws2 :
  mk = c :: m → Py.isspace c = false →
  is_quote q → all_space indent → all_space ws1 → all_comma cs → all_space ws2 →
  Py.strip (field_line indent mk ws1 q t cs ws2)
  = mk ++ quoted_value ws1 q t cs [].
Proof.
  intros -> Hc Hq Hi H1 Hcs H2. unfold Py.strip, field_line, quoted_value.
  rewrite lstrip_by_app by done.
  rewrite <- app_comm_cons, lstrip_by_head by done.
  rewrite app_comm_cons, app_nil_r.
  replace ((c :: m) ++ ws1 ++ [q] ++ t ++ [q] ++ cs ++ ws2)
    with (((((c :: m) ++ ws1 ++ [q] ++ t) ++ [q] ++ cs)) ++ ws2)
    by (by rewrite <- !(assoc (++))).
  rewrite rstrip_by_app by done.
  rewrite (rstrip_after Py.isspace (Py.is_char K.COMMA)).
  - by rewrite <- !(assoc (++)).
  - by apply quote_not_space.
  - by apply all_comma_is_char.
  - apply comma_not_space.
Qed.

Lemma split1_id rest : Py.split1 K.colon (K.id_marker ++ rest) !! 1 = Some rest.
Proof. reflexivity. Qed.

Lemma split1_title rest : Py.split1 K.colon (K.title_marker ++ rest) !! 1 = Some rest.
Proof. reflexivity. Qed.

Lemma split1_icon rest : Py.split1 K.colon (K.icon_marker ++ rest) !! 1 = Some rest.
Proof. reflexivity. Qed.

Lemma section_field_line st sec m set indent ws1 q t cs ws2 :
  (m, set) ∈ section_fields →
  state st = STATE_IN_SECTION → current_section st = Some sec →
  is_quote q → all_space indent → all_space ws1 → all_comma cs → all_space ws2 →
  step st (field_line indent m ws1 q t cs ws2)
  = Some (set_current_section (Some (set t sec)) st).
Proof.
  intros Hm Hst Hsec Hq Hi H1 Hcs H2.
  assert (clean_str (quoted_value ws1 q t cs []) = t) as Hclean
    by (apply clean_str_value; done || constructor).
  destruct st as [s secs cur csub bf]. simpl in *. subst s cur.
  unfold section_fields in Hm.
  repeat (apply elem_of_cons in Hm as [[= -> ->] | Hm]);
    try (by apply elem_of_nil in Hm);
    unfold step, update_section; simpl;
    match goal with
    | |- context [Py.strip (field_line _ ?mk _ _ _ _ _)] =>
        rewrite (strip_field_line _ mk _ _ _ _ _ _ _ eq_refl) by done
    end;
    decide_startswith; simpl;
    rewrite ?split1_id, ?split1_title, ?split1_icon; simpl;
    rewrite ?drop_0; by rewrite Hclean.
Qed.

Lemma subsection_field_line st sub m set indent ws1 q t cs ws2 :
  (m, set) ∈ subsection_fields →
  state st = STATE_IN_SUBSECTION → current_subsection st = Some sub →
  is_quote q → all_space indent → all_space ws1 → all_comma cs → all_space ws2 →
  step st (field_line indent m ws1 q t cs ws2)
  = Some (set_current_subsection (Some (set t sub)) st).
Proof.
  intros Hm Hst Hsec Hq Hi H1 Hcs H2.
  assert (clean_str (quoted_value ws1 q t cs []) = t) as Hclean
    by (apply clean_str_value; done || constructor).
  destruct st as [s secs cur csub bf]. simpl in *. subst s csub.
  unfold subsection_fields in Hm.
  repeat (apply elem_of_cons in Hm as [[= -> ->] | Hm]);
    try (by apply elem_of_nil in Hm);
    unfold step, update_subsection; simpl;
    match goal with
    | |- context [Py.strip (field_line _ ?mk _ _ _ _ _)] =>
        rewrite (strip_field_line _ mk _ _ _ _ _ _ _ eq_refl) by done
    end;
    decide_startswith; simpl;
    rewrite ?split1_id, ?split1_title; simpl;
    rewrite ?drop_0; by rewrite Hclean.
Qed.

(** X2: inside a section a line made of indentation, one of the markers id:,
    title: and icon:, and a quoted value stores the text between the quotes
    in that field of the current section; inside a subsection the markers
    id: and title: do the same for the current subsection.  Nothing else
    changes, and the text may hold colons and quotes. *)
Theorem scalar_field_lines :
  (∀ st sec m set indent ws1 q t cs ws2,
     (m, set) ∈ section_fields →
     state st = STATE_IN_SECTION → current_section st = Some sec →
     is_quote q → all_space indent → all_space ws1 → all_comma cs → all_space ws2 →
     step st (field_line indent m ws1 q t cs ws2)
     = Some (set_current_section (Some (set t sec)) st))
  ∧ (∀ st sub m set indent ws1 q t cs ws2,
       (m, set) ∈ subsection_fields →
       state st = STATE_IN_SUBSECTION → current_subsection st = Some sub →
       is_quote q → all_space indent → all_space ws1 → all_comma cs → all_space ws2 →
       step st (field_line indent m ws1 q t cs ws2)
       = Some (set_current_subsection (Some (set t sub)) st)).
Proof.
  split.
  - intros st sec m set. apply section_field_line.
  - intros st sub m set. apply subsection_field_line.
Qed.

(** ** List items *)

Lemma lstrip_by_keep f t :
  (∀ c, head t = Some c → f c = false) → Py.lstrip_by f t = t.
Proof. destruct t as [|c t]; [done|]. intros H. simpl. by rewrite (H c). Qed.

Lemma strip_c_keep x t :
  head t ≠ Some x → last t ≠ Some x → Py.strip_c x t = t.
Proof.
  intros Hh Hl. unfold Py.strip_c.
  rewrite lstrip_by_keep, rstrip_by_keep; [done| |].
  - intros c Hc. apply N.eqb_neq. by intros ->.
  - intros c Hc. apply N.eqb_neq. by intros ->.
Qed.

Lemma strip_c_quoted x t :
  head t ≠ Some x → last t ≠ Some x → Py.strip_c x ([x] ++ t ++ [x]) = t.
Proof.
  intros Hh Hl. unfold Py.strip_c.
  assert (Py.is_char x x = true) as Hx by apply N.eqb_refl.
  rewrite (lstrip_by_app _ [x]) by (by constructor).
  destruct t as [|c t]; [simpl; by rewrite Hx|].
  assert (Py.is_char x c = false) as Hc
    by (apply N.eqb_neq; intros ->; by apply Hh).
  rewrite <- app_comm_cons, lstrip_by_head, app_comm_cons by done.
  rewrite rstrip_by_app by (by constructor).
  apply rstrip_by_keep. intros d Hd. apply N.eqb_neq. by intros ->.
Qed.

Lemma list_item_value q t cs :
  is_quote q → all_comma cs → plain_ends t →
  list_item ([q] ++ t ++ [q] ++ cs) = t.
Proof.
  intros Hq Hcs [Hh Hl]. unfold list_item.
  pose proof (strip_quoted_value [] q t cs [] Hq ltac:(constructor) Hcs
                ltac:(constructor)) as E.
  unfold quoted_value in E. rewrite app_nil_l, app_nil_r in E.
  rewrite E, rstrip_commas by done.
  assert (head t ≠ Some K.SQUOTE) as H1 by (intros H; apply (Hh _ H); by left).
  assert (head t ≠ Some K.DQUOTE) as H2 by (intros H; apply (Hh _ H); by right).
  assert (last t ≠ Some K.SQUOTE) as H3 by (intros H; apply (Hl _ H); by left).
  assert (last t ≠ Some K.DQUOTE) as H4 by (intros H; apply (Hl _ H); by right).
  destruct Hq as [-> | ->].
  - rewrite strip_c_quoted by done. by apply strip_c_keep.
  - rewrite (strip_c_keep K.SQUOTE).
    + by apply strip_c_quoted.
    + done.
    + rewrite (assoc (++)), last_snoc. done.
Qed.

Lemma is_item_quoted indent q t cs ws2 :
  is_quote q → all_space indent → all_comma cs → all_space ws2 →
  is_item (quoted_value indent q t cs ws2) = true.
Proof.
  intros Hq Hi Hcs H2. unfold is_item. rewrite strip_quoted_value by done.
  destruct Hq as [-> | ->]; reflexivity.
Qed.

(** X3: inside a notes or a decisions list, a line made of indentation, a
    quote, a text, the same quote, commas and white space appends the text
    to the list and stays in the list, when the text neither starts nor
    ends with a quote character. *)
Theorem list_item_line st sub lst items indent q t cs ws2 :
  state st = lst → listing lst = true →
  current_subsection st = Some (list_field lst items sub) →
  is_quote q → all_space indent → all_comma cs → all_space ws2 → plain_ends t →
  step st (quoted_value indent q t cs ws2)
  = Some (mkPState lst (sections st) (current_section st)
            (Some (list_field lst (items ++ [t]) sub)) (buffer st)).
Proof.
  intros Hst Hlst Hsub Hq Hi Hcs H2 Ht.
  rewrite (step_list_item st sub lst items) by (done || by apply is_item_quoted).
  rewrite strip_quoted_value by done. by rewrite list_item_value.
Qed.

Lemma lstrip_by_head_not f s c : head (Py.lstrip_by f s) = Some c → f c = false.
Proof.
  induction s as [|d s IH]; simpl; [done|].
  destruct (f d) eqn:Hd; [done|]. simpl. by intros [= <-].
Qed.

Lemma rstrip_by_head f s c :
  head (Py.rstrip_by f s) = Some c → head s = Some c.
Proof.
  destruct (rstrip_by_spec f s) as (post & E & _).
  destruct (Py.rstrip_by f s) as [|d r]; [done|].
  simpl. intros [= ->]. by rewrite E.
Qed.

(** X4: whatever the line, the item taken from it neither starts nor ends
    with a double quote. *)
Theorem list_item_outer_quotes stripped :
  head (list_item stripped) ≠ Some K.DQUOTE
  ∧ last (list_item stripped) ≠ Some K.DQUOTE.
Proof.
  unfold list_item, Py.strip_c. split.
  - intros H. apply rstrip_by_head, lstrip_by_head_not in H. done.
  - intros H. apply rstrip_by_last in H. done.
Qed.

(** ** The document as a text *)

Lemma section_lines_nonempty sec : section_lines sec ≠ [].
Proof. done. Qed.

Lemma sections_lines_nonempty secs : secs ≠ [] → flat_map section_lines secs ≠ [].
Proof. destruct secs; [done|]. intros _. done. Qed.

(** X5: the document of two non-empty lists of sections put one after the
    other is the document of the first, a newline, and the document of the
    second. *)
Theorem generate_markdown_app s1 s2 :
  s1 ≠ [] → s2 ≠ [] →
  generate_markdown (s1 ++ s2)
  = out1 ← generate_markdown s1; out2 ← generate_markdown s2;
    Some (out1 ++ K.nl ++ out2).
Proof.
  intros H1 H2. rewrite !generate_markdown_lines. simpl.
  rewrite flat_map_app, join_app; [done| |]; by apply sections_lines_nonempty.
Qed.

Lemma closed_app l1 l2 : closed l2 → closed (l1 ++ l2).
Proof.
  intros (ls' & l & -> & H). exists (l1 ++ ls'), l.
  split; [by rewrite (assoc (++))|].
  destruct H as [H|[-> H]]; [by left|right]. split; [done|].
  by destruct l1, ls'.
Qed.

Lemma closed_join ls : closed ls → ∃ body, Py.join K.nl ls = body ++ K.nl.
Proof.
  intros (ls' & l & -> & H).
  destruct (decide (ls' = [])) as [->|Hne].
  - destruct H as [[b ->]|[_ H]]; [by exists b|done].
  - rewrite join_app by done.
    change (Py.join K.nl [l]) with l.
    destruct H as [[b ->]|[-> _]].
    + exists (Py.join K.nl ls' ++ K.nl ++ b). by rewrite <- !(assoc (++)).
    + exists (Py.join K.nl ls'). by rewrite app_nil_r.
Qed.

Lemma bullet_block_closed h items : bullet_block h items ≠ [] → closed (bullet_block h items).
Proof.
  unfold bullet_block. destruct (truthy items); [|done]. intros _.
  exists (h :: map (λ d, K.bullet ++ d) items), []. split; [done|]. by right.
Qed.

Lemma subsection_lines_closed sub : closed (subsection_lines sub).
Proof.
  unfold subsection_lines.
  destruct (decide (notes_block sub = [])) as [En|Hn].
  2: { rewrite !(assoc (++)). apply closed_app. by apply bullet_block_closed. }
  rewrite En, app_nil_r.
  destruct (decide (decisions_block sub = [])) as [Ed|Hd].
  2: { rewrite !(assoc (++)). apply closed_app. by apply bullet_block_closed. }
  rewrite Ed, app_nil_r.
  unfold code_block, content_block.
  destruct (truthy (default K.empty (sub_code sub))).
  { rewrite !(assoc (++)).
    change [Py.strip (default K.empty (sub_code sub)); K.fence_end ++ K.nl]
      with ([Py.strip (default K.empty (sub_code sub))] ++ [K.fence_end ++ K.nl]).
    rewrite !(assoc (++)). eexists _, _. split; [reflexivity|]. left. by eexists. }
  rewrite app_nil_r.
  destruct (truthy (default K.empty (sub_content sub))).
  { eexists _, _. split; [reflexivity|]. left. by eexists. }
  rewrite app_nil_r. unfold heading_block.
  exists [K.h2 ++ default K.unknown (sub_title sub)], (K.id_open ++ default K.empty (sub_id sub) ++ K.id_close ++ K.nl).
  split; [done|]. left. eexists (K.id_open ++ default K.empty (sub_id sub) ++ K.id_close).
  by rewrite <- !(assoc (++)).
Qed.

Lemma flat_map_closed {A} (f : A → list pystr) (l : list A) :
  l ≠ [] → (∀ x, closed (f x)) → closed (flat_map f l).
Proof.
  intros Hne Hf. destruct l as [|x l _] using rev_ind; [done|].
  rewrite flat_map_app. apply closed_app. simpl. rewrite app_nil_r. apply Hf.
Qed.

Lemma section_lines_closed sec : closed (section_lines sec).
Proof.
  unfold section_lines.
  destruct (decide (sec_subsections sec = [])) as [->|Hne].
  - simpl. unfold section_heading.
    eexists [_], _. split; [reflexivity|]. left.
    eexists (K.id_open ++ default K.empty (sec_id sec) ++ K.id_close).
    by rewrite <- !(assoc (++)).
  - apply closed_app, flat_map_closed; [done|]. apply subsection_lines_closed.
Qed.

(** X6: the document of no section is the empty text, and the document of
    at least one section ends with a newline. *)
Theorem document_ends_with_newline :
  generate_markdown [] = Some []
  ∧ ∀ secs, secs ≠ [] → ∃ body, generate_markdown secs = Some (body ++ K.nl).
Proof.
  split; [reflexivity|]. intros secs Hne. rewrite generate_markdown_lines.
  destruct (closed_join (flat_map section_lines secs)) as [body E].
  - apply flat_map_closed; [done|]. apply section_lines_closed.
  - exists body. by rewrite E.
Qed.

Lemma strip_all_space s : all_space s → Py.strip s = [].
Proof.
  intros H. unfold Py.strip.
  rewrite <- (app_nil_r s), lstrip_by_app by done. reflexivity.
Qed.

Lemma contains_char_absent x s : x ∉ s → Py.contains [x] s = false.
Proof.
  induction s as [|c s IH]; intros H; [done|].
  apply not_elem_of_cons in H as [Hc Hs].
  change (Py.contains [x] (c :: s)) with (((x =? c)%N && true) || Py.contains [x] s).
  rewrite IH by done. by apply N.eqb_neq in Hc as ->.
Qed.

(** X7: a field that holds white space only is still rendered: such a
    content gives one empty line, and such a code gives a typescript fence
    around an empty line.  The blocks are those [render_subsection]
    appends. *)
Theorem blank_field_rendered md sub :
  (∀ c, sub_content sub = Some c → c ≠ [] → all_space c →
        content_block sub = [K.nl])
  ∧ (∀ k, sub_code sub = Some k → k ≠ [] → all_space k →
          code_block sub = [K.fence_typescript; []; K.fence_end ++ K.nl])
  ∧ render_subsection md sub
    = Some (md ++ heading_block sub ++ content_block sub ++ code_block sub
            ++ decisions_block sub ++ notes_block sub).
Proof.
  split; [|split; [|apply render_subsection_lines]].
  - intros c Hc Hne Hs. unfold content_block. rewrite Hc. simpl.
    rewrite strip_all_space by done. by destruct c.
  - intros k Hk Hne Hs. unfold code_block, fence_lines. rewrite Hk. simpl.
    rewrite strip_all_space by done.
    assert (looks_like_diagram k = false) as ->; [|by destruct k].
    unfold looks_like_diagram, K.box_corner, K.box_bar.
    rewrite !contains_char_absent; [done| |]; intros Hin;
      by apply (proj1 (Forall_forall _ _) Hs) in Hin.
Qed.

(** ** Texts without a declaration, and texts that go on *)

Lemma split_c_cons x c s :
  Py.split_c x (c :: s)
  = if (c =? x)%N then [] :: Py.split_c x s
    else match Py.split_c x s with
         | l :: ls => (c :: l) :: ls
         | [] => [[c]]
         end.
Proof. reflexivity. Qed.

Lemma split_c_not_nil x s : Py.split_c x s ≠ [].
Proof.
  induction s as [|c s IH]; [done|]. rewrite split_c_cons.
  destruct (c =? x)%N; [done|]. by destruct (Py.split_c x s).
Qed.

Lemma split_c_app x a b :
  Py.split_c x (a ++ x :: b) = Py.split_c x a ++ Py.split_c x b.
Proof.
  induction a as [|c a IH].
  - rewrite app_nil_l, split_c_cons, N.eqb_refl. reflexivity.
  - rewrite <- app_comm_cons, !split_c_cons, IH.
    destruct (c =? x)%N; [done|].
    pose proof (split_c_not_nil x a). by destruct (Py.split_c x a).
Qed.

Lemma split_c_head_prefix x s l ls :
  Py.split_c x s = l :: ls → ∃ r, s = l ++ r.
Proof.
  revert l ls. induction s as [|c s IH]; intros l ls.
  - intros [= <- <-]. by exists [].
  - rewrite split_c_cons. destruct (c =? x)%N.
    + intros [= <- <-]. by exists (c :: s).
    + pose proof (split_c_not_nil x s).
      destruct (Py.split_c x s) as [|l0 ls0] eqn:E; [done|].
      intros [= <- <-]. destruct (IH _ _ eq_refl) as [r ->]. by exists r.
Qed.

Lemma startswith_prefix p u r :
  Py.startswith p u = true → Py.startswith p (u ++ r) = true.
Proof.
  intros H. apply startswith_inv in H as [t ->].
  rewrite <- (assoc (++)). apply startswith_app.
Qed.

Lemma contains_cons p c s :
  Py.contains p (c :: s) = Py.startswith p (c :: s) || Py.contains p s.
Proof. reflexivity. Qed.

Lemma lines_without p x s :
  Py.contains p s = false →
  Forall (λ l, Py.contains p l = false) (Py.split_c x s).
Proof.
  induction s as [|c s IH]; intros H.
  - by constructor.
  - rewrite contains_cons in H. apply orb_false_elim in H as [Hs Hc].
    specialize (IH Hc). rewrite split_c_cons. destruct (c =? x)%N.
    + constructor; [|done]. by destruct p.
    + pose proof (split_c_not_nil x s).
      destruct (Py.split_c x s) as [|l ls] eqn:E; [done|].
      apply Forall_cons in IH as [Hl Hls]. constructor; [|done].
      rewrite contains_cons, Hl, orb_false_r.
      destruct (Py.startswith p (c :: l)) eqn:Hp; [|done].
      destruct (split_c_head_prefix _ _ _ _ E) as [r ->].
      pose proof (startswith_prefix p (c :: l) r Hp) as Hq.
      rewrite <- app_comm_cons in Hq. congruence.
Qed.

Lemma run_root_skip ls : ∀ st,
  state st = STATE_ROOT →
  Forall (λ l, Py.contains K.export_marker l = false) ls →
  run st ls = Some st.
Proof.
  unfold run. induction ls as [|l ls IH]; intros st Hst H; [done|].
  apply Forall_cons in H as [Hl H]. simpl.
  rewrite step_unrecognized by (by rewrite Hst). simpl. by apply IH.
Qed.

(** X8: a text that nowhere holds the declaration marker gives no section,
    and the lines before the first one that holds it are skipped. *)
Theorem text_without_declaration :
  (∀ content, Py.contains K.export_marker content = false →
              parse_ts_file content = Some [])
  ∧ (∀ pre rest, Py.contains K.export_marker pre = false →
                 parse_ts_file (pre ++ K.NL :: rest) = parse_ts_file rest).
Proof.
  split.
  - intros content H. unfold parse_ts_file.
    by rewrite run_root_skip by (done || by apply lines_without).
  - intros pre rest H. unfold parse_ts_file.
    rewrite split_c_app, run_app.
    by rewrite run_root_skip by (done || by apply lines_without).
Qed.

(** X9: lines added after a text never remove nor change the sections
    extracted from it: the result for the longer text starts with the
    result for the text. *)
Theorem extracted_sections_stay a b :
  ∃ secs new,
    parse_ts_file a = Some secs
    ∧ parse_ts_file (a ++ K.NL :: b) = Some (secs ++ new).
Proof.
  unfold parse_ts_file. rewrite split_c_app, run_app.
  destruct (run_wf (Py.split_c K.NL a) init_state wf_init) as (sa & Ea & Hwf).
  rewrite Ea. simpl.
  destruct (run_wf (Py.split_c K.NL b) sa Hwf) as (sb & Eb & _).
  rewrite Eb. simpl.
  destruct (run_sections_grow _ _ _ Eb) as [new E].
  exists (sections sa), new. by rewrite E.
Qed.

(** X10: a template literal left open takes the rest of the text.  When
    the extractor is in a capture state at the end of a text, following
    lines none of which closes the capture are all added to the buffer, and
    the result is the one of the text alone. *)
Theorem unterminated_field_swallows a b st :
  run init_state (Py.split_c K.NL a) = Some st →
  capturing (state st) = true →
  Forall (λ l, closes_capture (Py.strip l) = false) (Py.split_c K.NL b) →
  run init_state (Py.split_c K.NL (a ++ K.NL :: b))
  = Some (mkPState (state st) (sections st) (current_section st)
            (current_subsection st) (buffer st ++ Py.split_c K.NL b))
  ∧ parse_ts_file (a ++ K.NL :: b) = parse_ts_file a.
Proof.
  intros Ha Hc Hb.
  assert (run init_state (Py.split_c K.NL (a ++ K.NL :: b))
          = Some (mkPState (state st) (sections st) (current_section st)
                    (current_subsection st) (buffer st ++ Py.split_c K.NL b))) as E.
  { rewrite split_c_app, run_app, Ha. simpl. by apply run_capture_keep. }
  split; [done|]. unfold parse_ts_file. by rewrite E, Ha.
Qed.

(** ** Declarations one after the other *)

Lemma step_agree pre a b line :
  agree pre a b → agree_opt pre (step a line) (step b line).
Proof.
  destruct a as [s secs [sec|] [sub|] bf], b as [s' secs' [sec'|] [sub'|] bf'];
    unfold agree; simpl; intros (<- & -> & H1 & H2 & H3);
    destruct s; simpl in *;
    try (specialize (H1 ltac:(lia)));
    try (specialize (H2 ltac:(lia)));
    try (specialize (H3 eq_refl));
    simplify_eq;
    unfold step, update_section, update_subsection; simpl; cbv zeta;
    repeat (match goal with
            | |- context [if ?c then _ else _] => destruct c; simpl
            | |- context [mbind _ ?o] => destruct o; simpl
            end);
    simpl; unfold agree; simpl;
    try done;
    repeat split; try done; try (intros; lia); try (by rewrite (assoc (++))).
Qed.

Lemma run_agree pre ls : ∀ a b,
  agree pre a b → agree_opt pre (run a ls) (run b ls).
Proof.
  unfold run. induction ls as [|l ls IH]; intros a b H; simpl; [done|].
  pose proof (step_agree pre a b l H) as Hs.
  destruct (step a l) as [a'|], (step b l) as [b'|]; simpl in *; try done.
  by apply IH.
Qed.

(** X11: when the extractor is back at the root at the end of a text, the
    result for this text followed by a second one is the sections of the
    first followed by the result for the second. *)
Theorem declarations_concatenate a b st :
  run init_state (Py.split_c K.NL a) = Some st → state st = STATE_ROOT →
  parse_ts_file (a ++ K.NL :: b)
  = secs ← parse_ts_file b; Some (sections st ++ secs).
Proof.
  intros Ha Hst. unfold parse_ts_file.
  rewrite split_c_app, run_app, Ha. simpl.
  assert (agree (sections st) st init_state) as Hag.
  { unfold agree. rewrite Hst. simpl. rewrite app_nil_r.
    repeat split; try done; intros; lia. }
  pose proof (run_agree (sections st) (Py.split_c K.NL b) st init_state Hag) as H.
  destruct (run st (Py.split_c K.NL b)) as [x|],
           (run init_state (Py.split_c K.NL b)) as [y|]; simpl in *; try done.
  destruct H as (_ & -> & _). done.
Qed.

(** ** The script: what a run touches *)

Lemma mkdir_all_new dirs : ∀ fs b fs' p x,
  mkdir_all dirs fs = (b, fs') → fs !! p = None → fs' !! p = Some x →
  x = Dir ∧ p ∈ dirs.
Proof.
  induction dirs as [|d dirs IH]; intros fs b fs' p x H Hp Hx; simpl in H.
  - injection H as <- <-. by rewrite Hp in Hx.
  - destruct (fs !! d) as [[t|]|] eqn:Hd.
    + injection H as <- <-. by rewrite Hp in Hx.
    + destruct (IH _ _ _ _ _ H Hp Hx) as [-> Hin]. split; [done|]. by right.
    + destruct (decide (p = d)) as [->|Hne].
      * pose proof (mkdir_all_preserves dirs _ _ _ d Dir H) as Hk.
        rewrite lookup_insert_eq in Hk. rewrite Hk in Hx by done.
        injection Hx as <-. split; [done|]. by left.
      * destruct (IH _ _ _ _ _ H ltac:(by rewrite lookup_insert_ne) Hx) as [-> Hin].
        split; [done|]. by right.
Qed.

Lemma mkdir_all_ok dirs : ∀ fs,
  (mkdir_all dirs fs).1 = true ↔ Forall (λ d, ∀ t, fs !! d ≠ Some (File t)) dirs.
Proof.
  induction dirs as [|d dirs IH]; intros fs; simpl; [done|].
  destruct (fs !! d) as [[t|]|] eqn:Hd.
  - simpl. split; [done|]. intros H. apply Forall_cons in H as [H _]. by destruct (H t).
  - rewrite IH. split.
    + intros H. constructor; [|done]. intros t. by rewrite Hd.
    + intros H. by apply Forall_cons in H as [_ H].
  - rewrite IH. split.
    + intros H. constructor; [intros t; by rewrite Hd|].
      eapply Forall_impl; [exact H|]. simpl. intros d' Hd' t Ht.
      destruct (decide (d' = d)) as [->|Hne]; [by rewrite Hd in Ht|].
      apply (Hd' t). by rewrite lookup_insert_ne.
    + intros H. apply Forall_cons in H as [_ H].
      eapply Forall_impl; [exact H|]. simpl. intros d' Hd' t.
      destruct (decide (d' = d)) as [->|Hne];
        [by rewrite lookup_insert_eq | rewrite lookup_insert_ne by done; apply Hd'].
Qed.

Lemma main_cases w r w' :
  main w = (r, w') →
  w' = w
  ∨ ∃ b fs, makedirs (dirname K.target_file) (files w) = (b, fs)
            ∧ (w' = mkWorld fs (stdout w)
               ∨ ∃ md sections, w' = mkWorld (<[K.target_file := File md]> fs)
                                       (stdout w ++ [summary sections])).
Proof.
  unfold main, main_with. intros H.
  destruct (files w !! K.source_file) as [[content|]|]; try (left; by injection H as <- <-).
  destruct (parse_ts_file content) as [sections|]; try (left; by injection H as <- <-).
  destruct (generate_markdown sections) as [md|]; try (left; by injection H as <- <-).
  destruct (makedirs (dirname K.target_file) (files w)) as [[|] fs] eqn:Hmk; right.
  - exists true, fs. split; [reflexivity|].
    destruct (fs !! K.target_file) as [[t|]|]; injection H as <- <-;
      try (right; by exists md, sections); by left.
  - exists false, fs. split; [reflexivity|]. left. by injection H as <- <-.
Qed.

(** X12: the script touches nothing but its output.  Whatever the run
    does, every path other than the target file keeps the entry it had, and
    a path that gets an entry gets a directory on the way to the target
    file. *)
Theorem main_touches_only_its_output w r w' p :
  main w = (r, w') → p ≠ K.target_file →
  (∀ v, files w !! p = Some v → files w' !! p = Some v)
  ∧ (∀ x, files w !! p = None → files w' !! p = Some x →
          x = Dir ∧ p ∈ ancestors [] (dirname K.target_file)).
Proof.
  intros H Hp.
  destruct (main_cases _ _ _ H) as [->|(b & fs & Hmk & Hw)].
  - split; [done|]. intros x Hn Hx. by rewrite Hn in Hx.
  - rewrite makedirs_target in Hmk.
    assert (files w' !! p = fs !! p) as E.
    { destruct Hw as [->|(md & secs & ->)]; [done|]. simpl.
      by rewrite lookup_insert_ne. }
    rewrite E. split.
    + intros v Hv. by apply (mkdir_all_preserves _ _ _ _ _ _ Hmk).
    + intros x Hn Hx. by apply (mkdir_all_new _ _ _ _ _ _ Hmk).
Qed.

(** X13: when the script ends without an exception, the source path is a
    file, none of the directories on the way to the target file is a file,
    and the target path is not a directory. *)
Theorem main_success_requires w :
  (main w).1 = Some () →
  (∃ content, files w !! K.source_file = Some (File content))
  ∧ Forall (λ d, ∀ t, files w !! d ≠ Some (File t))
      (ancestors [] (dirname K.target_file))
  ∧ files w !! K.target_file ≠ Some Dir.
Proof.
  unfold main, main_with.
  destruct (files w !! K.source_file) as [[content|]|] eqn:Hsrc; [|done..].
  destruct (parse_ts_file content) as [sections|]; [|done].
  destruct (generate_markdown sections) as [md|]; [|done].
  rewrite makedirs_target.
  pose proof (mkdir_all_ok (ancestors [] (dirname K.target_file)) (files w)) as Hok.
  destruct (mkdir_all (ancestors [] (dirname K.target_file)) (files w))
    as [[|] fs] eqn:Hmk; simpl in Hok; [|done].
  intros Hres. split; [by eexists|]. split; [by apply Hok|].
  intros Hd. apply (mkdir_all_preserves _ _ _ _ _ _ Hmk) in Hd.
  by rewrite Hd in Hres.
Qed.

(** ** The layout of a declaration, level by level *)

Lemma run_cons st l ls : run st (l :: ls) = st' ← step st l; run st' ls.
Proof. reflexivity. Qed.

Lemma run_nil st : run st [] = Some st.
Proof. reflexivity. Qed.

Lemma step_open_subsection st l :
  state st = STATE_IN_SUBSECTIONS_ARRAY → is_open l →
  step st l = Some (mkPState STATE_IN_SUBSECTION (sections st) (current_section st)
                      (Some new_subsection) (buffer st)).
Proof.
  intros Hst Hl. destruct st as [s secs cs csub bf]. simpl in *. subst s.
  unfold step. simpl. rewrite Hl. decide_tests. reflexivity.
Qed.

Lemma step_open_section st l :
  state st = STATE_IN_SECTIONS_ARRAY → is_open l →
  step st l = Some (mkPState STATE_IN_SECTION (sections st) (Some new_section)
                      (current_subsection st) (buffer st)).
Proof.
  intros Hst Hl. destruct st as [s secs cs csub bf]. simpl in *. subst s.
  unfold step. simpl. rewrite Hl. decide_tests. reflexivity.
Qed.

Lemma step_open_subsections st l :
  state st = STATE_IN_SECTION →
  Py.startswith K.subsections_marker (Py.strip l) = true →
  step st l = Some (set_state STATE_IN_SUBSECTIONS_ARRAY st).
Proof.
  intros Hst Hl. destruct st as [s secs cs csub bf]. simpl in *. subst.
  apply startswith_inv in Hl as [t Ht].
  unfold step. simpl. rewrite Ht. decide_tests. reflexivity.
Qed.

Lemma step_close_subsections st l :
  state st = STATE_IN_SUBSECTIONS_ARRAY → is_list_end l →
  step st l = Some (set_state STATE_IN_SECTION st).
Proof.
  intros Hst Hl. destruct st as [s secs cs csub bf]. simpl in *. subst.
  unfold step. simpl. destruct Hl as [-> | ->]; decide_tests; reflexivity.
Qed.

Lemma sec_extend_nil sec : sec_extend [] sec = sec.
Proof. destruct sec. unfold sec_extend. simpl. by rewrite app_nil_r. Qed.

Lemma sec_extend_app s1 s2 sec :
  sec_extend (s1 ++ s2) sec = sec_extend s2 (sec_extend s1 sec).
Proof. unfold sec_extend. simpl. by rewrite (assoc (++)). Qed.

(** Blocks inside a subsection. *)
Lemma writes_nil : writes [] (λ sub, sub).
Proof. intros st sub Hst Hsub. exists (buffer st). rewrite run_nil, <- Hst, <- Hsub. by destruct st. Qed.

Lemma writes_skip l :
  recognized STATE_IN_SUBSECTION l = false → writes [l] (λ sub, sub).
Proof.
  intros H st sub Hst Hsub. exists (buffer st).
  rewrite run_cons, step_unrecognized by (by rewrite Hst). simpl.
  rewrite <- Hst, <- Hsub. by destruct st.
Qed.

Lemma writes_field m set indent ws1 q t cs ws2 :
  (m, set) ∈ subsection_fields →
  is_quote q → all_space indent → all_space ws1 → all_comma cs → all_space ws2 →
  writes [field_line indent m ws1 q t cs ws2] (set t).
Proof.
  intros Hm Hq Hi H1 Hcs H2 st sub Hst Hsub. exists (buffer st).
  rewrite run_cons, (subsection_field_line st sub m set) by done. simpl.
  rewrite <- Hst. by destruct st.
Qed.

Lemma adds_nil : adds_subsections [] [].
Proof.
  intros st sec Hst Hsec. exists (current_subsection st), (buffer st).
  rewrite run_nil, sec_extend_nil, <- Hst, <- Hsec. by destruct st.
Qed.

Lemma adds_app b1 b2 s1 s2 :
  adds_subsections b1 s1 → adds_subsections b2 s2 →
  adds_subsections (b1 ++ b2) (s1 ++ s2).
Proof.
  intros H1 H2 st sec Hst Hsec.
  destruct (H1 st sec Hst Hsec) as (c1 & f1 & E1).
  rewrite run_app, E1. simpl.
  edestruct (H2 (mkPState STATE_IN_SUBSECTIONS_ARRAY (sections st)
                   (Some (sec_extend s1 sec)) c1 f1)) as (c2 & f2 & E2);
    [reflexivity | reflexivity |].
  rewrite E2. exists c2, f2. by rewrite sec_extend_app.
Qed.

Lemma adds_skip l :
  recognized STATE_IN_SUBSECTIONS_ARRAY l = false → adds_subsections [l] [].
Proof.
  intros H st sec Hst Hsec. exists (current_subsection st), (buffer st).
  rewrite run_cons, step_unrecognized by (by rewrite Hst). simpl.
  rewrite sec_extend_nil, <- Hst, <- Hsec. by destruct st.
Qed.

Lemma adds_subsection opening block closing f :
  is_open opening → writes block f → is_close closing →
  adds_subsections (opening :: block ++ [closing]) [f new_subsection].
Proof.
  intros Ho Hb Hc st sec Hst Hsec.
  rewrite run_cons, step_open_subsection by done. simpl.
  edestruct (Hb (mkPState STATE_IN_SUBSECTION (sections st) (current_section st)
                   (Some new_subsection) (buffer st))) as (buf & E);
    [reflexivity | reflexivity |]. simpl in E.
  rewrite run_app, E. simpl.
  rewrite run_cons, (step_close_subsection _ sec (f new_subsection)) by done.
  simpl. by eexists _, _.
Qed.

(** Blocks inside a section. *)
Lemma writes_section_nil : writes_section [] (λ sec, sec).
Proof.
  intros st sec Hst Hsec. exists (current_subsection st), (buffer st).
  rewrite run_nil, <- Hst, <- Hsec. by destruct st.
Qed.

Lemma writes_section_app b1 b2 g1 g2 :
  writes_section b1 g1 → writes_section b2 g2 →
  writes_section (b1 ++ b2) (λ sec, g2 (g1 sec)).
Proof.
  intros H1 H2 st sec Hst Hsec.
  destruct (H1 st sec Hst Hsec) as (c1 & f1 & E1).
  rewrite run_app, E1. simpl.
  edestruct (H2 (mkPState STATE_IN_SECTION (sections st) (Some (g1 sec)) c1 f1))
    as (c2 & f2 & E2); [reflexivity | reflexivity |].
  rewrite E2. by exists c2, f2.
Qed.

Lemma writes_section_skip l :
  recognized STATE_IN_SECTION l = false → writes_section [l] (λ sec, sec).
Proof.
  intros H st sec Hst Hsec. exists (current_subsection st), (buffer st).
  rewrite run_cons, step_unrecognized by (by rewrite Hst). simpl.
  rewrite <- Hst, <- Hsec. by destruct st.
Qed.

Lemma writes_section_field m set indent ws1 q t cs ws2 :
  (m, set) ∈ section_fields →
  is_quote q → all_space indent → all_space ws1 → all_comma cs → all_space ws2 →
  writes_section [field_line indent m ws1 q t cs ws2] (set t).
Proof.
  intros Hm Hq Hi H1 Hcs H2 st sec Hst Hsec.
  exists (current_subsection st), (buffer st).
  rewrite run_cons, (section_field_line st sec m set) by done. simpl.
  rewrite <- Hst. by destruct st.
Qed.

Lemma writes_section_subsections opening block closing subs :
  Py.startswith K.subsections_marker (Py.strip opening) = true →
  adds_subsections block subs → is_list_end closing →
  writes_section (opening :: block ++ [closing]) (sec_extend subs).
Proof.
  intros Ho Hb Hc st sec Hst Hsec.
  rewrite run_cons, step_open_subsections by done. simpl.
  destruct (Hb (set_state STATE_IN_SUBSECTIONS_ARRAY st) sec eq_refl Hsec)
    as (csub & buf & E).
  rewrite run_app, E. simpl.
  rewrite run_cons, step_close_subsections by done. simpl. by eexists _, _.
Qed.

(** Blocks inside the sections array. *)
Lemma adds_sections_nil : adds_sections [] [].
Proof.
  intros st Hst. exists (current_section st), (current_subsection st), (buffer st).
  rewrite run_nil, app_nil_r, <- Hst. by destruct st.
Qed.

Lemma adds_sections_app b1 b2 s1 s2 :
  adds_sections b1 s1 → adds_sections b2 s2 → adds_sections (b1 ++ b2) (s1 ++ s2).
Proof.
  intros H1 H2 st Hst.
  destruct (H1 st Hst) as (c1 & d1 & f1 & E1).
  rewrite run_app, E1. simpl.
  edestruct (H2 (mkPState STATE_IN_SECTIONS_ARRAY (sections st ++ s1) c1 d1 f1))
    as (c2 & d2 & f2 & E2); [reflexivity |].
  rewrite E2. simpl. exists c2, d2, f2. by rewrite (assoc (++)).
Qed.

Lemma adds_sections_skip l :
  recognized STATE_IN_SECTIONS_ARRAY l = false → adds_sections [l] [].
Proof.
  intros H st Hst. exists (current_section st), (current_subsection st), (buffer st).
  rewrite run_cons, step_unrecognized by (by rewrite Hst). simpl.
  rewrite app_nil_r, <- Hst. by destruct st.
Qed.

Lemma adds_section opening block closing g :
  is_open opening → writes_section block g → is_close closing →
  adds_sections (opening :: block ++ [closing]) [g new_section].
Proof.
  intros Ho Hb Hc st Hst.
  rewrite run_cons, step_open_section by done. simpl.
  edestruct (Hb (mkPState STATE_IN_SECTION (sections st) (Some new_section)
                   (current_subsection st) (buffer st))) as (csub & buf & E);
    [reflexivity | reflexivity |]. simpl in E.
  rewrite run_app, E. simpl.
  rewrite run_cons, (step_close_section _ (g new_section)) by done.
  simpl. by eexists _, _, _.
Qed.

Lemma document_run pre first block last post secs :
  Forall (λ l, Py.contains K.export_marker l = false) pre →
  Py.contains K.export_marker first = true → adds_sections block secs →
  Py.strip last = K.close_bracket_semi →
  Forall (λ l, Py.contains K.export_marker l = false) post →
  ∃ cs csub buf,
    run init_state (pre ++ first :: block ++ last :: post)
    = Some (mkPState STATE_ROOT secs cs csub buf).
Proof.
  intros Hpre Hf Hb Hl Hpost.
  rewrite run_app, run_root_skip by done. simpl.
  rewrite run_cons. unfold step at 1. simpl. rewrite Hf. simpl.
  destruct (Hb (set_state STATE_IN_SECTIONS_ARRAY init_state) eq_refl)
    as (cs & csub & buf & E).
  rewrite run_app, E. simpl. rewrite run_cons. unfold step at 1. simpl. rewrite Hl.
  decide_tests. simpl. rewrite run_root_skip by done. by eexists _, _, _.
Qed.

(** X14: in the subsections array, an opening brace line, a block of lines
    that writes fields, and a closing brace line append to the current
    section the empty record updated by the block.  Such blocks read one
    after the other append their records in order, and a line the state
    does not react to appends nothing. *)
Theorem subsection_block_extracted :
  (∀ opening block closing f,
     is_open opening → writes block f → is_close closing →
     adds_subsections (opening :: block ++ [closing]) [f new_subsection])
  ∧ (∀ b1 b2 s1 s2,
       adds_subsections b1 s1 → adds_subsections b2 s2 →
       adds_subsections (b1 ++ b2) (s1 ++ s2))
  ∧ (∀ l, recognized STATE_IN_SUBSECTIONS_ARRAY l = false → adds_subsections [l] []).
Proof.
  split; [|split].
  - apply adds_subsection.
  - apply adds_app.
  - apply adds_skip.
Qed.

(** X15: in the sections array, an opening brace line, a block of lines
    that updates the section, and a closing brace line append to the result
    the empty section updated by the block.  A subsections line, blocks that
    append subsections, and the closing bracket line update the section by
    these subsections; blocks inside a section and blocks in the sections
    array compose in reading order. *)
Theorem section_block_extracted :
  (∀ opening block closing g,
     is_open opening → writes_section block g → is_close closing →
     adds_sections (opening :: block ++ [closing]) [g new_section])
  ∧ (∀ opening block closing subs,
       Py.startswith K.subsections_marker (Py.strip opening) = true →
       adds_subsections block subs → is_list_end closing →
       writes_section (opening :: block ++ [closing]) (sec_extend subs))
  ∧ (∀ b1 b2 g1 g2,
       writes_section b1 g1 → writes_section b2 g2 →
       writes_section (b1 ++ b2) (λ sec, g2 (g1 sec)))
  ∧ (∀ b1 b2 s1 s2,
       adds_sections b1 s1 → adds_sections b2 s2 →
       adds_sections (b1 ++ b2) (s1 ++ s2)).
Proof.
  split; [|split; [|split]].
  - apply adds_section.
  - apply writes_section_subsections.
  - apply writes_section_app.
  - apply adds_sections_app.
Qed.

(** X16: a text made of lines without the declaration marker, the line
    with the marker, a block that appends sections, the closing line of the
    array and again lines without the marker gives exactly the sections of
    the block. *)
Theorem document_extracted pre first block last post secs :
  Forall (λ l, Py.contains K.export_marker l = false) pre →
  Py.contains K.export_marker first = true → adds_sections block secs →
  Py.strip last = K.close_bracket_semi →
  Forall (λ l, Py.contains K.export_marker l = false) post →
  Forall (λ l, K.NL ∉ l) (pre ++ first :: block ++ last :: post) →
  parse_ts_file (Py.join K.nl (pre ++ first :: block ++ last :: post)) = Some secs.
Proof.
  intros Hpre Hf Hb Hl Hpost Hnl. unfold parse_ts_file.
  rewrite (split_c_join K.NL) by (done || by destruct pre).
  destruct (document_run pre first block last post secs Hpre Hf Hb Hl Hpost)
    as (cs & csub & buf & ->).
  reflexivity.
Qed.

(** ** Template literals on one line *)

Lemma find_sep_cons sep c s :
  Py.find_sep sep (c :: s)
  = if Py.startswith sep (c :: s) then Some ([], drop (length sep) (c :: s))
    else match Py.find_sep sep s with
         | Some (a, b) => Some (c :: a, b)
         | None => None
         end.
Proof. reflexivity. Qed.

Lemma find_sep_first c m pre rest :
  c ∉ pre → Py.find_sep (c :: m) (pre ++ (c :: m) ++ rest) = Some (pre, rest).
Proof.
  induction pre as [|d pre IH]; intros H.
  - rewrite app_nil_l. rewrite <- app_comm_cons, find_sep_cons, app_comm_cons.
    by rewrite startswith_app, drop_app_length.
  - apply not_elem_of_cons in H as [Hd Hpre].
    rewrite <- app_comm_cons, find_sep_cons, IH by done.
    assert (Py.startswith (c :: m) (d :: pre ++ (c :: m) ++ rest) = false) as ->; [|done].
    change (Py.startswith (c :: m) (d :: pre ++ (c :: m) ++ rest))
      with ((c =? d)%N && Py.startswith m (pre ++ (c :: m) ++ rest)).
    by apply N.eqb_neq in Hd as ->.
Qed.

Lemma rsplit1_last x t u :
  x ∉ u → Py.rsplit1 [x] (t ++ [x] ++ u) = [t; u].
Proof.
  intros H. unfold Py.rsplit1.
  rewrite !reverse_app, reverse_singleton, <- (assoc (++)).
  rewrite (find_sep_first x [] (reverse u) (reverse t))
    by (by rewrite elem_of_reverse).
  by rewrite !reverse_involutive.
Qed.

Lemma lstrip_by_mid f s d r :
  f d = false → Py.lstrip_by f (s ++ d :: r) = Py.lstrip_by f s ++ d :: r.
Proof.
  intros Hd. induction s as [|c s IH].
  - rewrite app_nil_l. simpl. by rewrite Hd.
  - rewrite <- app_comm_cons. simpl. destruct (f c); [exact IH|done].
Qed.

Lemma strip_end s d ws :
  Py.isspace d = false → all_space ws →
  Py.strip (s ++ [d] ++ ws) = Py.lstrip_by Py.isspace s ++ [d].
Proof.
  intros Hd Hws. unfold Py.strip.
  change (s ++ [d] ++ ws) with (s ++ d :: ws).
  rewrite lstrip_by_mid by done.
  change (Py.lstrip_by Py.isspace s ++ d :: ws)
    with (Py.lstrip_by Py.isspace s ++ [d] ++ ws).
  rewrite (assoc (++)), rstrip_by_app by done. by apply rstrip_by_snoc.
Qed.

Lemma lstrip_by_nil f s : Py.lstrip_by f s = [] → Forall (λ c, f c = true) s.
Proof.
  induction s as [|c s IH]; [by constructor|]. simpl.
  destruct (f c) eqn:Hc; [|done]. intros H. constructor; [done|by apply IH].
Qed.

Lemma all_space_no_backtick ws : all_space ws → K.BACKTICK ∉ ws.
Proof.
  intros H Hin. by apply (proj1 (Forall_forall _ _) H) in Hin.
Qed.

Lemma single_line_template_value t cs ws :
  all_space ws → cs = [K.COMMA] ∨ (cs = [] ∧ ¬ all_space t) →
  single_line (t ++ [K.BACKTICK] ++ cs ++ ws) = true
  ∧ Py.rsplit1 K.backtick (t ++ [K.BACKTICK] ++ cs ++ ws) !! 0%nat = Some t.
Proof.
  intros Hws Hcs. split.
  - unfold single_line. destruct Hcs as [-> | [-> Ht]].
    + replace (t ++ [K.BACKTICK] ++ [K.COMMA] ++ ws)
        with ((t ++ K.BACKTICK :: []) ++ [K.COMMA] ++ ws)
        by (by rewrite <- (assoc (++))).
      rewrite strip_end, lstrip_by_mid by done.
      rewrite <- app_assoc.
      change ((K.BACKTICK :: []) ++ [K.COMMA]) with K.backtick_comma.
      by rewrite endswith_app.
    + rewrite app_nil_l, strip_end by done.
      apply orb_true_iff. right. apply andb_true_iff. split.
      * apply (endswith_app _ K.backtick).
      * apply bool_decide_eq_true. rewrite length_app. simpl.
        destruct (Py.lstrip_by Py.isspace t) eqn:E; [|simpl; lia].
        destruct Ht. by apply lstrip_by_nil.
  - unfold K.backtick. rewrite rsplit1_last; [done|].
    intros Hin. apply elem_of_app in Hin as [Hin | Hin].
    + destruct Hcs as [-> | [-> _]]; [|by apply elem_of_nil in Hin].
      revert Hin. apply (bool_decide_unpack _). vm_compute. exact I.
    + by apply all_space_no_backtick in Hin.
Qed.

Lemma template_line_split indent cap t cs ws :
  capturing cap = true → all_space indent → all_space ws →
  cs = [K.COMMA] ∨ cs = [] →
  Py.startswith (capture_marker cap) (Py.strip (template_line indent cap t cs ws)) = true
  ∧ Py.split1 (capture_marker cap) (template_line indent cap t cs ws) !! 1%nat
    = Some (t ++ [K.BACKTICK] ++ cs ++ ws).
Proof.
  intros Hcap Hi Hws Hcs. unfold template_line.
  assert (∃ c m, capture_marker cap = c :: m ∧ Py.isspace c = false)
    as (c & m & Em & Hc).
  { destruct cap; try done; by eexists _, _. }
  rewrite Em. split.
  - unfold Py.strip. rewrite lstrip_by_app by done.
    rewrite <- app_comm_cons, lstrip_by_head by done.
    assert (Py.rstrip_by Py.isspace (c :: m ++ t ++ [K.BACKTICK] ++ cs ++ ws)
            = c :: m ++ t ++ [K.BACKTICK] ++ cs) as ->.
    { destruct Hcs as [-> | ->].
      - transitivity (Py.rstrip_by Py.isspace
                        (((c :: m ++ t ++ [K.BACKTICK]) ++ [K.COMMA]) ++ ws)).
        { f_equal. by rewrite <- !(assoc (++)), <- !app_comm_cons, <- !(assoc (++)). }
        rewrite rstrip_by_app, rstrip_by_snoc by done.
        by rewrite <- !app_comm_cons, <- !(assoc (++)).
      - rewrite app_nil_l.
        transitivity (Py.rstrip_by Py.isspace (((c :: m ++ t) ++ [K.BACKTICK]) ++ ws)).
        { f_equal. by rewrite <- !(assoc (++)), <- !app_comm_cons, <- !(assoc (++)). }
        rewrite rstrip_by_app, rstrip_by_snoc by done.
        by rewrite <- !app_comm_cons, <- !(assoc (++)), app_nil_r. }
    rewrite app_comm_cons. apply startswith_app.
  - unfold Py.split1. rewrite find_sep_first; [done|].
    intros Hin. apply (proj1 (Forall_forall _ _) Hi) in Hin. congruence.
Qed.

(** X17: a content or code field written on one line, as the marker, a
    text, a backtick and then a comma or nothing, followed by white space,
    stores the text as it is, leading and trailing white space and inner
    backticks included.  Without the comma the text must not be white space
    only. *)
Theorem single_line_template st sub cap indent t cs ws :
  state st = STATE_IN_SUBSECTION → current_subsection st = Some sub →
  capturing cap = true → all_space indent → all_space ws →
  cs = [K.COMMA] ∨ (cs = [] ∧ ¬ all_space t) →
  step st (template_line indent cap t cs ws)
  = Some (mkPState STATE_IN_SUBSECTION (sections st) (current_section st)
            (Some (capture_field cap t sub)) (buffer st)).
Proof.
  intros Hst Hsub Hcap Hi Hws Hcs.
  destruct (template_line_split indent cap t cs ws) as [Hs Hf]; try done.
  { destruct Hcs as [-> | [-> _]]; [by left | by right]. }
  destruct (single_line_template_value t cs ws) as [H1 H2]; try done.
  by apply (step_single_line st sub cap _ (t ++ [K.BACKTICK] ++ cs ++ ws) t).
Qed.

(** ** The script: a run that fails *)


(** ** The theorems on values, layout and script at concrete inputs *)

Ltac spaces := unfold all_space, all_comma; repeat constructor.

Lemma clean_str_quoted_witness :
  clean_str (quoted_value (Py.lit " ") K.SQUOTE (Py.lit "Intro") [K.COMMA; K.COMMA]
               (Py.lit "  "))
  = Py.lit "Intro".
Proof.
  apply clean_str_quoted; [left; reflexivity | spaces..].
Defined.

Lemma scalar_field_lines_witness :
  step section_state title_line
  = Some (set_current_section (Some titled_section) section_state)
  ∧ step open_state title_line
    = Some (set_current_subsection (Some titled_sub) open_state).
Proof.
  destruct scalar_field_lines as [H1 H2]. split.
  - apply (H1 section_state new_section K.title_marker sec_set_title);
      [unfold section_fields; set_solver | reflexivity | reflexivity
      | left; reflexivity | spaces..].
  - apply (H2 open_state new_subsection K.title_marker sub_set_title);
      [unfold subsection_fields; set_solver | reflexivity | reflexivity
      | left; reflexivity | spaces..].
Defined.

Lemma list_item_line_witness :
  step notes_state (quoted_value (Py.lit "   ") K.DQUOTE (Py.lit "it's") [K.COMMA] [])
  = Some (mkPState STATE_IN_NOTES [] (Some new_section)
            (Some (sub_set_notes [Py.lit "n1"; Py.lit "it's"] new_subsection)) []).
Proof.
  apply (list_item_line notes_state new_subsection STATE_IN_NOTES [Py.lit "n1"]);
    [reflexivity | reflexivity | reflexivity | right; reflexivity | spaces.. |].
  split; intros c Hc; vm_compute in Hc; injection Hc as <-;
    intros [E | E]; vm_compute in E; discriminate E.
Defined.

Lemma generate_markdown_app_witness :
  generate_markdown ([scenario_section] ++ [titled_section])
  = out1 ← generate_markdown [scenario_section];
    out2 ← generate_markdown [titled_section];
    Some (out1 ++ K.nl ++ out2).
Proof. apply generate_markdown_app; discriminate. Defined.

Lemma document_ends_with_newline_witness :
  ∃ body, generate_markdown [scenario_section] = Some (body ++ K.nl).
Proof. apply (proj2 document_ends_with_newline). discriminate. Defined.

Lemma blank_field_rendered_witness :
  content_block blank_sub = [K.nl]
  ∧ code_block blank_sub = [K.fence_typescript; []; K.fence_end ++ K.nl].
Proof.
  destruct (blank_field_rendered [] blank_sub) as (H1 & H2 & _). split.
  - apply (H1 (Py.lit "  ")); [reflexivity | discriminate | spaces].
  - apply (H2 (Py.lit " ")); [reflexivity | discriminate | spaces].
Defined.

Lemma text_without_declaration_witness :
  parse_ts_file (Py.lit "const x = [ { id: 'a' } ];") = Some []
  ∧ parse_ts_file (Py.lit "import x;" ++ K.NL :: scenario_source)
    = parse_ts_file scenario_source.
Proof.
  destruct text_without_declaration as [H1 H2]. split.
  - apply H1. vm_compute. reflexivity.
  - apply H2. vm_compute. reflexivity.
Defined.

Lemma unterminated_field_swallows_witness :
  parse_ts_file (unterminated_source ++ K.NL :: unterminated_rest)
  = parse_ts_file unterminated_source.
Proof.
  apply (unterminated_field_swallows unterminated_source unterminated_rest
           unterminated_state).
  - vm_compute. reflexivity.
  - reflexivity.
  - apply (bool_decide_unpack _). vm_compute. reflexivity.
Defined.

Lemma declarations_concatenate_witness :
  parse_ts_file (scenario_source ++ K.NL :: scenario_source)
  = secs ← parse_ts_file scenario_source;
    Some (sections scenario_final_state ++ secs).
Proof.
  apply declarations_concatenate.
  - vm_compute. reflexivity.
  - reflexivity.
Defined.

Lemma main_touches_only_its_output_witness :
  files (main first_world).2 !! K.source_file = Some (File scenario_source).
Proof.
  destruct (main_touches_only_its_output first_world (main first_world).1
              (main first_world).2 K.source_file) as [H _].
  - apply surjective_pairing.
  - vm_compute. discriminate.
  - apply H. vm_compute. reflexivity.
Defined.

Lemma main_success_requires_witness :
  (∃ content, files first_world !! K.source_file = Some (File content))
  ∧ Forall (λ d, ∀ t, files first_world !! d ≠ Some (File t))
      (ancestors [] (dirname K.target_file))
  ∧ files first_world !! K.target_file ≠ Some Dir.
Proof.
  apply main_success_requires. vm_compute. reflexivity.
Defined.

Lemma subsection_block_extracted_witness :
  ∃ csub buf,
    run array_state (Py.lit "  {" :: [title_line] ++ [Py.lit "  },"])
    = Some (mkPState STATE_IN_SUBSECTIONS_ARRAY []
              (Some (sec_extend [titled_sub] new_section)) csub buf).
Proof.
  destruct subsection_block_extracted as (H & _).
  apply (H (Py.lit "  {") [title_line] (Py.lit "  },") (sub_set_title (Py.lit "Intro"))).
  - vm_compute. reflexivity.
  - apply (writes_field K.title_marker sub_set_title);
      [unfold subsection_fields; set_solver | left; reflexivity | spaces..].
  - left. vm_compute. reflexivity.
  - reflexivity.
  - reflexivity.
Defined.

Lemma section_block_extracted_witness :
  adds_sections small_section_block [titled_section].
Proof.
  destruct section_block_extracted as (H & _).
  apply (H (Py.lit "  {") [title_line] (Py.lit "  },") (sec_set_title (Py.lit "Intro"))).
  - vm_compute. reflexivity.
  - apply (writes_section_field K.title_marker sec_set_title);
      [unfold section_fields; set_solver | left; reflexivity | spaces..].
  - left. vm_compute. reflexivity.
Defined.

Lemma document_extracted_witness :
  parse_ts_file
    (Py.join K.nl ([Py.lit "// generated"]
                   ++ Py.lit "export const specSections = ["
                   :: small_section_block ++ Py.lit "];" :: [K.empty]))
  = Some [titled_section].
Proof.
  apply document_extracted.
  - repeat constructor.
  - vm_compute. reflexivity.
  - unfold small_section_block.
    apply (adds_section (Py.lit "  {") [title_line] (Py.lit "  },")
             (sec_set_title (Py.lit "Intro"))).
    + vm_compute. reflexivity.
    + apply (writes_section_field K.title_marker sec_set_title);
        [unfold section_fields; set_solver | left; reflexivity | spaces..].
    + left. vm_compute. reflexivity.
  - vm_compute. reflexivity.
  - repeat constructor.
  - apply (bool_decide_unpack _). vm_compute. reflexivity.
Defined.

Lemma single_line_template_witness :
  step open_state
    (template_line (Py.lit "    ") STATE_IN_CONTENT (Py.lit " a `b` c ") [K.COMMA]
       (Py.lit "  "))
  = Some (mkPState STATE_IN_SUBSECTION [] (Some new_section)
            (Some (sub_set_content (Py.lit " a `b` c ") new_subsection)) []).
Proof.
  apply (single_line_template open_state new_subsection STATE_IN_CONTENT);
    [reflexivity | reflexivity | reflexivity | spaces | spaces | by left].
Defined.

